(** * Shallow embedding of [TRITONBACKEND_ModelInstanceExecute] (src/src/api.cu)

    The execute entry point of the FIL backend is modelled as a program in a
    small state-and-exception monad.  C++ [TritonException]s become the
    [Throw] outcome of the monad and every [try]/[catch] of the source is a
    [try_catch].  Every observable side effect (prediction call, sync of the
    output batch, response sent, request released, statistics recorded,
    error logged) is appended to an event trace held in the state.

    The collaborators that live outside this file (clock, instance and
    model state, batch planner, prediction engine, statistics sink) are
    collected in an environment [Env]: each of them is an oracle that says
    what value the call returns and whether it throws. *)

From Stdlib Require Import List Arith Lia ZArith Bool.
Import ListNotations.

(** ** Data model *)

(** A [TritonException], identified by its error code and message id. *)
Record TritonError := mkError { err_code : nat; err_msg : nat }.

(** A batch produced by [get_input_batches]: its [extent] (the half-open
    index range [first, second) into the request list) and the input shape
    of each covered request ([batch.shapes]).  The staged input data itself
    ([batch.data]) is opaque to the orchestration and is not modelled. *)
Record Batch := mkBatch {
  extent : nat * nat;
  shapes : list (list Z)
}.

(** The lazy sequence of batches yielded by [get_input_batches]: the batches
    it yields in order, then either normal end of iteration ([None]) or the
    exception thrown while forming the next batch ([Some e]). *)
Record Plan := mkPlan {
  batches : list Batch;
  plan_end : option TritonError
}.

(** Outcome of the compute section of one batch: [get_output_batch] may
    throw, [instance_state->predict] may throw, [output_batch.sync()] may
    throw, or all three succeed. *)
Inductive ComputeOutcome :=
| COk
| StageFail (e : TritonError)
| PredictFail (e : TritonError)
| SyncFail (e : TritonError).

(** The collaborators of the execute entry point.
    - [clk n]: value of the [n]-th read of [steady_clock::now()];
    - [setup]: whether [get_instance_state], [StateForModel] or
      [get_native_memory_for_instance] throws;
    - [predict_proba], [num_class]: the model state's configuration;
    - [plan]: what [get_input_batches] yields;
    - [compute k]: outcome of the compute section of the [k]-th batch;
    - [stat_fail n]: whether the [n]-th call of [report_statistics] throws. *)
Record Env := mkEnv {
  clk : nat -> nat;
  setup : option TritonError;
  predict_proba : bool;
  num_class : Z;
  plan : Plan;
  compute : nat -> ComputeOutcome;
  stat_fail : nat -> option TritonError
}.

(** Payload of a terminal event on a response channel. *)
Inductive Resp := ROk | RErr (e : TritonError).

(** Observable effects. *)
Inductive Event :=
| EOutput (k : nat) (output_shapes : list (list Z))   (* get_output_batch *)
| EPredict (k : nat) (ext : nat * nat)                (* instance_state->predict *)
| ESync (k : nat)                                     (* output_batch.sync() done *)
| ESend (i : nat) (r : Resp)                          (* response of request i sent *)
| ERelease (i : nat)                                  (* request i released *)
| EStatReqs (reqs : list nat) (success : bool) (t_start t_cstart t_cend t_end : nat)
| EStatBatch (count : Z) (t_start t_cstart t_cend t_end : nat)
| ELogError (e : TritonError).

(** Program state: the trace, the number of clock reads and of statistics
    calls made so far, and the locals [responses], [end_request] and
    [total_inference_count] of the source. *)
Record St := mkSt {
  trace : list Event;
  tick : nat;
  nstat : nat;
  responses : list nat;
  end_request : nat;
  total_inference_count : Z
}.

Definition init_st : St := mkSt [] 0 0 [] 0 0.

(** ** The monad *)

Inductive Exc (A : Type) := Ok (a : A) | Throw (e : TritonError).
Arguments Ok {A} a.
Arguments Throw {A} e.

Definition M (A : Type) := St -> Exc A * St.

Definition ret {A} (a : A) : M A := fun s => (Ok a, s).

Definition bind {A B} (m : M A) (k : A -> M B) : M B :=
  fun s => match m s with
           | (Ok a, s') => k a s'
           | (Throw e, s') => (Throw e, s')
           end.

Definition throw {A} (e : TritonError) : M A := fun s => (Throw e, s).

(** [try { m } catch (TritonException& e) { h e }] *)
Definition try_catch {A} (m : M A) (h : TritonError -> M A) : M A :=
  fun s => match m s with
           | (Ok a, s') => (Ok a, s')
           | (Throw e, s') => h e s'
           end.

Notation "'let*' x ':=' m 'in' k" := (bind m (fun x => k))
  (at level 200, x name, m at level 100, k at level 200).
Notation "m1 ;; m2" := (bind m1 (fun _ => m2)) (at level 100, right associativity).

Fixpoint iter_m {A} (f : A -> M unit) (l : list A) : M unit :=
  match l with
  | [] => ret tt
  | x :: l' => f x ;; iter_m f l'
  end.

(** State accessors. *)
Definition emit (ev : Event) : M unit :=
  fun s => (Ok tt, mkSt (trace s ++ [ev]) (tick s) (nstat s) (responses s)
                        (end_request s) (total_inference_count s)).

Definition get_responses : M (list nat) := fun s => (Ok (responses s), s).

Definition set_responses (r : list nat) : M unit :=
  fun s => (Ok tt, mkSt (trace s) (tick s) (nstat s) r
                        (end_request s) (total_inference_count s)).

Definition get_end_request : M nat := fun s => (Ok (end_request s), s).

Definition set_end_request (n : nat) : M unit :=
  fun s => (Ok tt, mkSt (trace s) (tick s) (nstat s) (responses s)
                        n (total_inference_count s)).

Definition get_total : M Z := fun s => (Ok (total_inference_count s), s).

Definition set_total (z : Z) : M unit :=
  fun s => (Ok tt, mkSt (trace s) (tick s) (nstat s) (responses s)
                        (end_request s) z).

Definition next_stat : M nat :=
  fun s => (Ok (nstat s), mkSt (trace s) (tick s) (S (nstat s)) (responses s)
                               (end_request s) (total_inference_count s)).

(** [size_t] arithmetic. *)
Definition wrap64 (z : Z) : Z := z mod 2 ^ 64.

(** ** Collaborators *)

Section Collaborators.
Variable env : Env.

(** [std::chrono::steady_clock::now().time_since_epoch().count()] *)
Definition now : M nat :=
  fun s => (Ok (clk env (tick s)),
            mkSt (trace s) (S (tick s)) (nstat s) (responses s)
                 (end_request s) (total_inference_count s)).

(** [get_instance_state], [StateForModel], [get_native_memory_for_instance] *)
Definition setup_instance : M unit :=
  match setup env with
  | None => ret tt
  | Some e => throw e
  end.

Definition log_error (e : TritonError) : M unit := emit (ELogError e).

(** [report_statistics(instance, requests, success, t1, t2, t3, t4)] *)
Definition report_statistics_reqs (reqs : list nat) (success : bool)
  (t1 t2 t3 t4 : nat) : M unit :=
  emit (EStatReqs reqs success t1 t2 t3 t4) ;;
  let* n := next_stat in
  match stat_fail env n with
  | None => ret tt
  | Some e => throw e
  end.

(** [report_statistics(instance, count, t1, t2, t3, t4)] *)
Definition report_statistics_count (count : Z) (t1 t2 t3 t4 : nat) : M unit :=
  emit (EStatBatch count t1 t2 t3 t4) ;;
  let* n := next_stat in
  match stat_fail env n with
  | None => ret tt
  | Some e => throw e
  end.

(** [try { report } catch (TritonException& stat_err) { log_error(...) }] *)
Definition report_logged (report : M unit) : M unit :=
  try_catch report log_error.

(** [send_responses(responses)] *)
Definition send_responses (resps : list nat) : M unit :=
  iter_m (fun i => emit (ESend i ROk)) resps.

(** [send_responses(responses, err)] *)
Definition send_responses_err (resps : list nat) (e : TritonError) : M unit :=
  iter_m (fun i => emit (ESend i (RErr e))) resps.

(** [send_error_responses(requests, err)] *)
Definition send_error_responses (reqs : list nat) (e : TritonError) : M unit :=
  iter_m (fun i => emit (ESend i (RErr e))) reqs.

(** [release_requests(requests)] *)
Definition release_requests (reqs : list nat) : M unit :=
  iter_m (fun i => emit (ERelease i)) reqs.

(** [construct_responses(batch_requests)]: one response per request. *)
Definition construct_responses (reqs : list nat) : M (list nat) := ret reqs.

(** [get_output_batch(..., output_shapes, ...)] *)
Definition get_output_batch (k : nat) (output_shapes : list (list Z)) : M unit :=
  emit (EOutput k output_shapes) ;;
  match compute env k with
  | StageFail e => throw e
  | _ => ret tt
  end.

(** [instance_state->predict(batch.data, output_batch, predict_proba)] *)
Definition predict (k : nat) (ext : nat * nat) : M unit :=
  emit (EPredict k ext) ;;
  match compute env k with
  | PredictFail e => throw e
  | _ => ret tt
  end.

(** [output_batch.sync()] *)
Definition sync (k : nat) : M unit :=
  match compute env k with
  | SyncFail e => throw e
  | _ => emit (ESync k)
  end.

End Collaborators.

(** ** The execute entry point *)

(** Lines 190-199: output shape of each covered request.  [input_shape[0]]
    is read with [hd 0] (the planner only yields shapes of rank >= 1). *)
Definition output_shape (pp : bool) (nc : Z) (input_shape : list Z) : list Z :=
  [hd 0%Z input_shape] ++ (if pp then [nc] else []).

Definition output_shapes (pp : bool) (nc : Z) (shs : list (list Z)) : list (list Z) :=
  map (output_shape pp nc) shs.

(** [requests.begin() + extent.first, requests.begin() + extent.second) *)
Definition batch_requests (b : Batch) : list nat :=
  seq (fst (extent b)) (snd (extent b) - fst (extent b)).

(** [total_inference_count += input_shape[0]] *)
Definition add_inference_count (input_shape : list Z) : M unit :=
  let* t := get_total in
  set_total (wrap64 (t + hd 0%Z input_shape)).

Section Execute.
Variable env : Env.

(** Body of the [for (auto& batch : input_batches)] loop, for the [k]-th batch. *)
Definition process_batch (k : nat) (b : Batch) : M unit :=
  let* batch_start_time := now env in
  iter_m add_inference_count (shapes b) ;;
  let oshapes := output_shapes (predict_proba env) (num_class env) (shapes b) in
  let breqs := batch_requests b in
  let* r := construct_responses breqs in
  set_responses r ;;
  try_catch
    (get_output_batch env k oshapes ;;
     let* batch_compute_start_time := now env in
     predict env k (extent b) ;;
     let* batch_compute_end_time := now env in
     sync env k ;;
     let* r := get_responses in
     send_responses r ;;
     set_responses [] ;;
     set_end_request (snd (extent b)) ;;
     let* t_end := now env in
     report_logged (report_statistics_reqs env breqs true batch_start_time
                      batch_compute_start_time batch_compute_end_time t_end) ;;
     release_requests breqs)
    (fun request_err =>
     let* r := get_responses in
     send_responses_err r request_err ;;
     set_responses [] ;;
     set_end_request (snd (extent b)) ;;
     (* the two [now()] arguments, read left to right *)
     let* t1 := now env in
     let* t2 := now env in
     report_logged (report_statistics_reqs env breqs false batch_start_time
                      batch_start_time t1 t2) ;;
     release_requests breqs).

Fixpoint process_batches (k : nat) (bs : list Batch) : M unit :=
  match bs with
  | [] => ret tt
  | b :: bs' => process_batch k b ;; process_batches (S k) bs'
  end.

(** The iteration over the lazy batch sequence: the yielded batches, then
    either the end of iteration or the exception of the planner. *)
Definition iterate_batches : M unit :=
  process_batches 0 (batches (plan env)) ;;
  match plan_end (plan env) with
  | None => ret tt
  | Some e => throw e
  end.

(** The handler of lines 254-276. *)
Definition abort_remaining (request_count all_start_time : nat)
  (request_err : TritonError) : M (option TritonError) :=
  let* r := get_responses in
  send_responses_err r request_err ;;
  set_responses [] ;;
  let* er := get_end_request in
  let reqs := seq er (request_count - er) in
  send_error_responses reqs request_err ;;
  let* all_end_time := now env in
  report_logged (report_statistics_reqs env reqs false all_start_time
                   all_start_time all_end_time all_end_time) ;;
  release_requests reqs ;;
  ret (Some request_err).

(** [TRITONBACKEND_ModelInstanceExecute]: [None] is the [nullptr] success
    result, [Some e] the returned error. *)
Definition execute (request_count : nat) : M (option TritonError) :=
  let* all_start_time := now env in
  try_catch
    (setup_instance env ;;
     set_end_request 0 ;;
     let* r := try_catch (iterate_batches ;; ret None)
                         (abort_remaining request_count all_start_time) in
     match r with
     | Some e => ret (Some e)
     | None =>
         let* all_end_time := now env in
         let* total := get_total in
         report_logged (report_statistics_count env total all_start_time
                          all_start_time all_end_time all_end_time) ;;
         ret None
     end)
    (fun err => ret (Some err)).

End Execute.

(** Running an invocation from the initial state. *)
Definition run (env : Env) (request_count : nat) : Exc (option TritonError) * St :=
  execute env request_count init_st.

Definition result (env : Env) (n : nat) : Exc (option TritonError) := fst (run env n).
Definition final_trace (env : Env) (n : nat) : list Event := trace (snd (run env n)).

(** ** Projections of the trace *)

Definition sends_of (tr : list Event) : list (nat * Resp) :=
  flat_map (fun ev => match ev with ESend i r => [(i, r)] | _ => [] end) tr.

Definition releases_of (tr : list Event) : list nat :=
  flat_map (fun ev => match ev with ERelease i => [i] | _ => [] end) tr.

Definition predicts_of (tr : list Event) : list (nat * (nat * nat)) :=
  flat_map (fun ev => match ev with EPredict k x => [(k, x)] | _ => [] end) tr.

Definition stats_of (tr : list Event) : list Event :=
  filter (fun ev => match ev with EStatReqs _ _ _ _ _ _ | EStatBatch _ _ _ _ _ => true
                                | _ => false end) tr.

(** Number of terminal events on the channel of request [i]. *)
Definition sent_count (i : nat) (tr : list Event) : nat :=
  length (filter (fun p => Nat.eqb (fst p) i) (sends_of tr)).

(** Number of releases of request [i]. *)
Definition released_count (i : nat) (tr : list Event) : nat :=
  count_occ Nat.eq_dec (releases_of tr) i.

(** The error logged when the [n]-th statistics call fails. *)
Definition stat_log (env : Env) (n : nat) : list Event :=
  match stat_fail env n with
  | None => []
  | Some e => [ELogError e]
  end.

(** Terminal payload routed for the [k]-th batch. *)
Definition resp_of (c : ComputeOutcome) : Resp :=
  match c with
  | COk => ROk
  | StageFail e | PredictFail e | SyncFail e => RErr e
  end.

(** ** The batch planner

    Modelled from the spec: the guarantees of [get_input_batches] (declared
    in triton_fil/triton_tensor_utils.cuh, whose code is not part of src/).
    Section 3 of the spec: "Batches are produced in non-decreasing extent
    order and their extents partition the full request range without gaps
    or overlaps"; section 4.2: each batch carries the input shape of every
    covered request.  [chain_ok a bs] says the extents of [bs] are
    contiguous starting at [a]; [chain_end a bs] is where they stop. *)
Fixpoint chain_ok (a : nat) (bs : list Batch) : bool :=
  match bs with
  | [] => true
  | b :: bs' => Nat.eqb (fst (extent b)) a && Nat.leb a (snd (extent b))
                && chain_ok (snd (extent b)) bs'
  end.

Fixpoint chain_end (a : nat) (bs : list Batch) : nat :=
  match bs with
  | [] => a
  | b :: bs' => chain_end (snd (extent b)) bs'
  end.

(** Modelled from the spec: a well-formed result of [get_input_batches] on
    [request_count] requests whose input shapes are [req_shapes]: extents
    contiguous from 0; covering all requests when iteration ends normally,
    and within range when the planner throws; each batch carrying the input
    shapes of the requests of its extent. *)
Definition wf_plan (req_shapes : list (list Z)) (request_count : nat) (p : Plan) : Prop :=
  chain_ok 0 (batches p) = true /\
  (match plan_end p with
   | None => chain_end 0 (batches p) = request_count
   | Some _ => chain_end 0 (batches p) <= request_count
   end) /\
  Forall (fun b => shapes b = map (fun i => nth i req_shapes []) (batch_requests b))
         (batches p).

(** ** Concrete scenarios *)

Definition error1 : TritonError := mkError 13 1.
Definition error2 : TritonError := mkError 3 2.

(** Section 8 of the spec: requests with row counts [4; 1; 8], two batches
    [0,2) and [2,3), the second batch's compute fails. *)
Definition scen_shapes : list (list Z) := [[4; 5]; [1; 5]; [8; 5]]%Z.

Definition scen_plan : Plan :=
  mkPlan [mkBatch (0, 2) [[4; 5]; [1; 5]]%Z; mkBatch (2, 3) [[8; 5]]%Z] None.

Definition scen_env : Env :=
  mkEnv (fun n => 100 + n) None false 1%Z scen_plan
        (fun k => if Nat.eqb k 1 then PredictFail error1 else COk)
        (fun _ => None).

(** ** The effect of one loop iteration, written out *)

(** [total_inference_count] after the shapes of a batch are counted. *)
Definition add_rows (acc : Z) (shs : list (list Z)) : Z :=
  fold_left (fun t sh => wrap64 (t + hd 0%Z sh)) shs acc.

(** The events emitted while processing the [k]-th batch [b], when the
    clock has been read [t] times and the statistics sink called [n] times
    before. *)
Definition batch_trace (env : Env) (k : nat) (b : Batch) (t n : nat) : list Event :=
  let reqs := batch_requests b in
  let os := output_shapes (predict_proba env) (num_class env) (shapes b) in
  let c := clk env in
  match compute env k with
  | COk =>
      [EOutput k os; EPredict k (extent b); ESync k]
      ++ map (fun i => ESend i ROk) reqs
      ++ [EStatReqs reqs true (c t) (c (S t)) (c (S (S t))) (c (S (S (S t))))]
      ++ stat_log env n ++ map ERelease reqs
  | StageFail e =>
      [EOutput k os]
      ++ map (fun i => ESend i (RErr e)) reqs
      ++ [EStatReqs reqs false (c t) (c t) (c (S t)) (c (S (S t)))]
      ++ stat_log env n ++ map ERelease reqs
  | PredictFail e =>
      [EOutput k os; EPredict k (extent b)]
      ++ map (fun i => ESend i (RErr e)) reqs
      ++ [EStatReqs reqs false (c t) (c t) (c (S (S t))) (c (S (S (S t))))]
      ++ stat_log env n ++ map ERelease reqs
  | SyncFail e =>
      [EOutput k os; EPredict k (extent b)]
      ++ map (fun i => ESend i (RErr e)) reqs
      ++ [EStatReqs reqs false (c t) (c t) (c (S (S (S t)))) (c (S (S (S (S t)))))]
      ++ stat_log env n ++ map ERelease reqs
  end.

(** Number of clock reads made by one loop iteration. *)
Definition batch_ticks (c : ComputeOutcome) : nat :=
  match c with
  | COk => 4
  | StageFail _ => 3
  | PredictFail _ => 4
  | SyncFail _ => 5
  end.

Definition add_trace (s : St) (l : list Event) : St :=
  mkSt (trace s ++ l) (tick s) (nstat s) (responses s) (end_request s)
       (total_inference_count s).

Lemma iter_emit_eq {A} (g : A -> Event) (l : list A) (s : St) :
  iter_m (fun x => emit (g x)) l s = (Ok tt, add_trace s (map g l)).
Proof.
  revert s; induction l as [|x l IH]; intros s; simpl.
  - unfold ret, add_trace. rewrite app_nil_r. destruct s; reflexivity.
  - unfold bind; simpl. rewrite IH. unfold add_trace; simpl.
    rewrite <- app_assoc. reflexivity.
Qed.

Lemma send_responses_eq r s :
  send_responses r s = (Ok tt, add_trace s (map (fun i => ESend i ROk) r)).
Proof. apply iter_emit_eq. Qed.

Lemma send_responses_err_eq r e s :
  send_responses_err r e s = (Ok tt, add_trace s (map (fun i => ESend i (RErr e)) r)).
Proof. apply iter_emit_eq. Qed.

Lemma send_error_responses_eq r e s :
  send_error_responses r e s = (Ok tt, add_trace s (map (fun i => ESend i (RErr e)) r)).
Proof. apply iter_emit_eq. Qed.

Lemma release_requests_eq r s :
  release_requests r s = (Ok tt, add_trace s (map ERelease r)).
Proof. apply iter_emit_eq. Qed.

Lemma count_inferences_eq shs s :
  iter_m add_inference_count shs s =
  (Ok tt, mkSt (trace s) (tick s) (nstat s) (responses s) (end_request s)
               (add_rows (total_inference_count s) shs)).
Proof.
  revert s; induction shs as [|sh shs IH]; intros s; simpl.
  - destruct s; reflexivity.
  - unfold bind at 1; simpl. rewrite IH. reflexivity.
Qed.

(** A statistics call wrapped in its [try]/[catch] always completes: the
    record is attempted and, when the sink throws, the error is logged. *)
Lemma report_reqs_logged_eq env reqs ok t1 t2 t3 t4 s :
  report_logged (report_statistics_reqs env reqs ok t1 t2 t3 t4) s =
  (Ok tt, mkSt (trace s ++ EStatReqs reqs ok t1 t2 t3 t4 :: stat_log env (nstat s))
               (tick s) (S (nstat s)) (responses s) (end_request s)
               (total_inference_count s)).
Proof.
  unfold report_logged, report_statistics_reqs, try_catch, bind, emit, next_stat,
    stat_log, log_error; simpl.
  destruct (stat_fail env (nstat s)); simpl.
  - unfold emit; simpl. rewrite <- ?app_assoc. reflexivity.
  - unfold ret. rewrite ?app_nil_r. reflexivity.
Qed.

Lemma report_count_logged_eq env z t1 t2 t3 t4 s :
  report_logged (report_statistics_count env z t1 t2 t3 t4) s =
  (Ok tt, mkSt (trace s ++ EStatBatch z t1 t2 t3 t4 :: stat_log env (nstat s))
               (tick s) (S (nstat s)) (responses s) (end_request s)
               (total_inference_count s)).
Proof.
  unfold report_logged, report_statistics_count, try_catch, bind, emit, next_stat,
    stat_log, log_error; simpl.
  destruct (stat_fail env (nstat s)); simpl.
  - unfold emit; simpl. rewrite <- ?app_assoc. reflexivity.
  - unfold ret. rewrite ?app_nil_r. reflexivity.
Qed.

Ltac run_step :=
  unfold get_output_batch, predict, sync, setup_instance, construct_responses;
  unfold bind, ret, throw, try_catch, now, emit, get_responses, set_responses,
    get_end_request, set_end_request, get_total, set_total;
  simpl;
  repeat (rewrite ?send_responses_eq, ?send_responses_err_eq,
            ?send_error_responses_eq, ?release_requests_eq, ?count_inferences_eq,
            ?report_reqs_logged_eq, ?report_count_logged_eq; unfold add_trace; simpl).

Lemma process_batch_eq env k b s :
  process_batch env k b s =
  (Ok tt, mkSt (trace s ++ batch_trace env k b (tick s) (nstat s))
               (tick s + batch_ticks (compute env k)) (S (nstat s)) []
               (snd (extent b))
               (add_rows (total_inference_count s) (shapes b))).
Proof.
  unfold process_batch, batch_trace.
  run_step.
  destruct (compute env k) as [|e|e|e]; run_step.
  all: rewrite <- ?app_assoc; simpl; rewrite <- ?app_assoc.
  all: do 2 f_equal; lia.
Qed.

(** ** The batch loop and the whole invocation, written out *)

Definition batch_state (env : Env) (k : nat) (b : Batch) (s : St) : St :=
  mkSt (trace s ++ batch_trace env k b (tick s) (nstat s))
       (tick s + batch_ticks (compute env k)) (S (nstat s)) []
       (snd (extent b)) (add_rows (total_inference_count s) (shapes b)).

Fixpoint loop_state (env : Env) (k : nat) (bs : list Batch) (s : St) : St :=
  match bs with
  | [] => s
  | b :: bs' => loop_state env (S k) bs' (batch_state env k b s)
  end.

Fixpoint loop_trace (env : Env) (k : nat) (bs : list Batch) (t n : nat) : list Event :=
  match bs with
  | [] => []
  | b :: bs' => batch_trace env k b t n
                ++ loop_trace env (S k) bs' (t + batch_ticks (compute env k)) (S n)
  end.

Fixpoint loop_ticks (env : Env) (k : nat) (bs : list Batch) : nat :=
  match bs with
  | [] => 0
  | b :: bs' => batch_ticks (compute env k) + loop_ticks env (S k) bs'
  end.

(** [total_inference_count] after the shapes of all batches are counted. *)
Definition add_batch_rows (acc : Z) (bs : list Batch) : Z :=
  fold_left (fun t b => add_rows t (shapes b)) bs acc.

Lemma process_batches_eq env k bs s :
  process_batches env k bs s = (Ok tt, loop_state env k bs s).
Proof.
  revert k s; induction bs as [|b bs IH]; intros k s; simpl.
  - reflexivity.
  - unfold bind at 1. rewrite process_batch_eq. apply IH.
Qed.

Lemma loop_state_fields env k bs s :
  trace (loop_state env k bs s) = trace s ++ loop_trace env k bs (tick s) (nstat s) /\
  tick (loop_state env k bs s) = tick s + loop_ticks env k bs /\
  nstat (loop_state env k bs s) = nstat s + length bs /\
  responses (loop_state env k bs s) = match bs with [] => responses s | _ => [] end /\
  end_request (loop_state env k bs s) = chain_end (end_request s) bs /\
  total_inference_count (loop_state env k bs s)
    = add_batch_rows (total_inference_count s) bs.
Proof.
  revert k s; induction bs as [|b bs IH]; intros k s; simpl.
  - rewrite app_nil_r, Nat.add_0_r, Nat.add_0_r. repeat split.
  - destruct (IH (S k) (batch_state env k b s)) as (H1 & H2 & H3 & H4 & H5 & H6).
    rewrite H1, H2, H3, H4, H5, H6. unfold batch_state; simpl.
    repeat split.
    + rewrite app_assoc. reflexivity.
    + lia.
    + lia.
    + destruct bs; reflexivity.
Qed.

Lemma run_setup_fail env n e :
  setup env = Some e ->
  run env n = (Ok (Some e), mkSt [] 1 0 [] 0 0).
Proof.
  intros He. unfold run, execute, init_st. run_step. rewrite He. reflexivity.
Qed.

(** Setup succeeds and the planner ends normally. *)
Lemma run_done env n :
  setup env = None -> plan_end (plan env) = None ->
  let bs := batches (plan env) in
  let te := clk env (S (loop_ticks env 0 bs)) in
  result env n = Ok None /\
  final_trace env n =
    loop_trace env 0 bs 1 0
    ++ EStatBatch (add_batch_rows 0 bs) (clk env 0) (clk env 0) te te
       :: stat_log env (length bs).
Proof.
  intros Hs Hp. unfold result, final_trace, run, execute, init_st, iterate_batches.
  run_step. rewrite Hs. run_step. rewrite process_batches_eq. run_step.
  rewrite Hp. run_step.
  destruct (loop_state_fields env 0 (batches (plan env))
             (mkSt [] 1 0 [] 0 0%Z)) as (H1 & H2 & H3 & H4 & H5 & H6).
  simpl in *. rewrite H1, H2, H3, H6. auto.
Qed.

(** Setup succeeds and the planner throws [e] after its last batch. *)
Lemma run_abort env n e :
  setup env = None -> plan_end (plan env) = Some e ->
  let bs := batches (plan env) in
  let er := chain_end 0 bs in
  let rem := seq er (n - er) in
  let te := clk env (S (loop_ticks env 0 bs)) in
  result env n = Ok (Some e) /\
  final_trace env n =
    loop_trace env 0 bs 1 0
    ++ map (fun i => ESend i (RErr e)) rem
    ++ EStatReqs rem false (clk env 0) (clk env 0) te te
       :: stat_log env (length bs) ++ map ERelease rem.
Proof.
  intros Hs Hp. unfold result, final_trace, run, execute, init_st, iterate_batches.
  run_step. rewrite Hs. run_step. rewrite process_batches_eq. run_step.
  rewrite Hp. unfold abort_remaining. run_step.
  destruct (loop_state_fields env 0 (batches (plan env))
             (mkSt [] 1 0 [] 0 0%Z)) as (H1 & H2 & H3 & H4 & H5 & H6).
  simpl in *. rewrite H4.
  replace (match batches (plan env) with [] | _ => [] end) with (@nil nat)
    by (destruct (batches (plan env)); reflexivity).
  simpl. rewrite app_nil_r, H1, H2, H3, H5, <- !app_assoc. auto.
Qed.

(** ** Projections of the written-out traces *)

Lemma sends_of_app l1 l2 : sends_of (l1 ++ l2) = sends_of l1 ++ sends_of l2.
Proof. apply flat_map_app. Qed.
Lemma releases_of_app l1 l2 : releases_of (l1 ++ l2) = releases_of l1 ++ releases_of l2.
Proof. apply flat_map_app. Qed.
Lemma predicts_of_app l1 l2 : predicts_of (l1 ++ l2) = predicts_of l1 ++ predicts_of l2.
Proof. apply flat_map_app. Qed.
Lemma stats_of_app l1 l2 : stats_of (l1 ++ l2) = stats_of l1 ++ stats_of l2.
Proof. apply filter_app. Qed.

Lemma sends_of_sends r l :
  sends_of (map (fun i => ESend i r) l) = map (fun i => (i, r)) l.
Proof. induction l; simpl; congruence. Qed.
Lemma sends_of_releases l : sends_of (map ERelease l) = [].
Proof. induction l; simpl; auto. Qed.
Lemma releases_of_sends r l : releases_of (map (fun i => ESend i r) l) = [].
Proof. induction l; simpl; auto. Qed.
Lemma releases_of_releases l : releases_of (map ERelease l) = l.
Proof. induction l; simpl; congruence. Qed.
Lemma predicts_of_sends r l : predicts_of (map (fun i => ESend i r) l) = [].
Proof. induction l; simpl; auto. Qed.
Lemma predicts_of_releases l : predicts_of (map ERelease l) = [].
Proof. induction l; simpl; auto. Qed.
Lemma stats_of_sends r l : stats_of (map (fun i => ESend i r) l) = [].
Proof. induction l; simpl; auto. Qed.
Lemma stats_of_releases l : stats_of (map ERelease l) = [].
Proof. induction l; simpl; auto. Qed.
Lemma sends_of_log env n : sends_of (stat_log env n) = [].
Proof. unfold stat_log; destruct (stat_fail env n); reflexivity. Qed.
Lemma releases_of_log env n : releases_of (stat_log env n) = [].
Proof. unfold stat_log; destruct (stat_fail env n); reflexivity. Qed.
Lemma predicts_of_log env n : predicts_of (stat_log env n) = [].
Proof. unfold stat_log; destruct (stat_fail env n); reflexivity. Qed.
Lemma stats_of_log env n : stats_of (stat_log env n) = [].
Proof. unfold stat_log; destruct (stat_fail env n); reflexivity. Qed.

Create Rewrite HintDb proj.
Hint Rewrite sends_of_app releases_of_app predicts_of_app stats_of_app
  sends_of_sends sends_of_releases releases_of_sends releases_of_releases
  predicts_of_sends predicts_of_releases stats_of_sends stats_of_releases
  sends_of_log releases_of_log predicts_of_log stats_of_log : proj.

Ltac proj_simpl := repeat (autorewrite with proj; simpl).

Lemma batch_trace_sends env k b t n :
  sends_of (batch_trace env k b t n)
  = map (fun i => (i, resp_of (compute env k))) (batch_requests b).
Proof.
  unfold batch_trace; destruct (compute env k); proj_simpl; rewrite ?app_nil_r; reflexivity.
Qed.

Lemma batch_trace_releases env k b t n :
  releases_of (batch_trace env k b t n) = batch_requests b.
Proof. unfold batch_trace; destruct (compute env k); proj_simpl; reflexivity. Qed.

Lemma batch_trace_predicts env k b t n :
  predicts_of (batch_trace env k b t n)
  = match compute env k with StageFail _ => [] | _ => [(k, extent b)] end.
Proof. unfold batch_trace; destruct (compute env k); proj_simpl; reflexivity. Qed.

(** What every batch of the loop routes, in order. *)
Fixpoint expected_sends (env : Env) (k : nat) (bs : list Batch) : list (nat * Resp) :=
  match bs with
  | [] => []
  | b :: bs' => map (fun i => (i, resp_of (compute env k))) (batch_requests b)
                ++ expected_sends env (S k) bs'
  end.

Lemma loop_trace_sends env k bs t n :
  sends_of (loop_trace env k bs t n) = expected_sends env k bs.
Proof.
  revert k t n; induction bs as [|b bs IH]; intros k t n; simpl; auto.
  rewrite sends_of_app, batch_trace_sends, IH. reflexivity.
Qed.

Lemma loop_trace_releases env k bs t n :
  releases_of (loop_trace env k bs t n) = flat_map batch_requests bs.
Proof.
  revert k t n; induction bs as [|b bs IH]; intros k t n; simpl; auto.
  rewrite releases_of_app, batch_trace_releases, IH. reflexivity.
Qed.

Lemma loop_trace_predicts env k bs t n k' x :
  In (k', x) (predicts_of (loop_trace env k bs t n)) -> exists b, In b bs /\ x = extent b.
Proof.
  revert k t n; induction bs as [|b bs IH]; intros k t n; simpl; [tauto|].
  rewrite predicts_of_app, batch_trace_predicts, in_app_iff. intros [H|H].
  - destruct (compute env k); simpl in H; try contradiction;
    destruct H as [H|[]]; inversion H; subst; eauto.
  - destruct (IH _ _ _ H) as (b' & Hb' & ->). eauto.
Qed.

Lemma expected_sends_fst env k bs :
  map fst (expected_sends env k bs) = flat_map batch_requests bs.
Proof.
  revert k; induction bs as [|b bs IH]; intros k; simpl; auto.
  rewrite map_app, IH, map_map. simpl. rewrite map_id. reflexivity.
Qed.

Lemma chain_ok_cover a bs :
  chain_ok a bs = true ->
  a <= chain_end a bs /\ flat_map batch_requests bs = seq a (chain_end a bs - a).
Proof.
  revert a; induction bs as [|b bs IH]; intros a H; simpl in *.
  - rewrite Nat.sub_diag. auto.
  - apply andb_prop in H as [H Hc]. apply andb_prop in H as [Hf Hle].
    apply Nat.eqb_eq in Hf. apply Nat.leb_le in Hle.
    destruct (IH _ Hc) as [Hz Hs]. rewrite Hs. unfold batch_requests. rewrite Hf.
    split; [lia|].
    replace (chain_end (snd (extent b)) bs - a)
      with ((snd (extent b) - a) + (chain_end (snd (extent b)) bs - snd (extent b)))
      by lia.
    rewrite seq_app. f_equal. f_equal. lia.
Qed.

Lemma chain_ok_bound a bs b :
  chain_ok a bs = true -> In b bs -> snd (extent b) <= chain_end a bs.
Proof.
  revert a; induction bs as [|b' bs IH]; intros a H Hin; simpl in *; [tauto|].
  apply andb_prop in H as [_ Hc]. destruct Hin as [<-|Hin]; [|eauto].
  destruct bs as [|b2 bs]; simpl; [lia|].
  pose proof (chain_ok_cover _ _ Hc) as [Hz _]. simpl in Hz. exact Hz.
Qed.

Lemma count_occ_seq a m i :
  count_occ Nat.eq_dec (seq a m) i = if (a <=? i) && (i <? a + m) then 1 else 0.
Proof.
  revert a; induction m as [|m IH]; intros a; simpl.
  - destruct (Nat.leb_spec a i), (Nat.ltb_spec i (a + 0)); simpl; lia.
  - rewrite IH. destruct (Nat.eq_dec a i);
      destruct (Nat.leb_spec a i), (Nat.ltb_spec i (a + S m)),
        (Nat.leb_spec (S a) i), (Nat.ltb_spec i (S a + m)); simpl; lia.
Qed.

Lemma sent_count_fst i tr :
  sent_count i tr = count_occ Nat.eq_dec (map fst (sends_of tr)) i.
Proof.
  unfold sent_count. induction (sends_of tr) as [|[j r] l IH]; simpl; auto.
  destruct (Nat.eqb_spec j i); destruct (Nat.eq_dec j i); simpl; congruence.
Qed.

(** Every request of [0, n) is routed and released once, once setup has
    succeeded and the planner keeps to its contract. *)
Lemma final_routing_cover env req_shapes n :
  setup env = None -> wf_plan req_shapes n (plan env) ->
  map fst (sends_of (final_trace env n)) = seq 0 n /\
  releases_of (final_trace env n) = seq 0 n.
Proof.
  intros Hs (Hc & He & _).
  destruct (chain_ok_cover _ _ Hc) as [_ Hcov].
  destruct (plan_end (plan env)) as [e|] eqn:Hp.
  - destruct (run_abort env n e Hs Hp) as [_ ->].
    proj_simpl. rewrite loop_trace_sends, loop_trace_releases, map_app,
      expected_sends_fst, Hcov, Nat.sub_0_r, app_nil_r, map_map. simpl.
    rewrite map_id.
    assert (Hsplit : seq 0 n = seq 0 (chain_end 0 (batches (plan env)))
                               ++ seq (chain_end 0 (batches (plan env)))
                                      (n - chain_end 0 (batches (plan env)))).
    { rewrite <- seq_app. f_equal. lia. }
    rewrite <- Hsplit. split; reflexivity.
  - destruct (run_done env n Hs Hp) as [_ ->].
    proj_simpl. rewrite loop_trace_sends, loop_trace_releases, app_nil_r,
      expected_sends_fst, Hcov, He, Nat.sub_0_r, ?app_nil_r. split; reflexivity.
Qed.

(** Scenario environments. *)
Definition scen_setup_fail_env : Env :=
  mkEnv (fun n => 100 + n) (Some error2) false 1%Z scen_plan
        (fun _ => COk) (fun _ => None).

Definition scen_abort_plan : Plan :=
  mkPlan [mkBatch (0, 1) [[4; 5]]%Z] (Some error2).

Definition scen_abort_env : Env :=
  mkEnv (fun n => 100 + n) None true 3%Z scen_abort_plan
        (fun _ => COk) (fun _ => None).

Definition scen_empty_env : Env :=
  mkEnv (fun n => 100 + n) None false 1%Z (mkPlan [] None)
        (fun _ => COk) (fun _ => None).

(** ** C1 *)

(** C1 (as stated, refuted): "for every invocation, every request receives
    exactly one terminal outcome and is released exactly once".  When
    [get_instance_state] throws (lines 173-175), the outer handler of line
    289 returns the error and request 0 gets no response and no release. *)
Lemma exactly_once_fails_on_setup_error :
  sent_count 0 (final_trace scen_setup_fail_env 3) = 0 /\
  released_count 0 (final_trace scen_setup_fail_env 3) = 0.
Proof. vm_compute. split; reflexivity. Qed.

Lemma setup_failure_touches_nothing_helper env n e :
  setup env = Some e ->
  result env n = Ok (Some e) /\ final_trace env n = [].
Proof.
  intros He. unfold result, final_trace. rewrite (run_setup_fail env n e He). auto.
Qed.

(** C1 (amended): for every invocation whose setup (instance state, model
    state, memory space) succeeds, on every exit path (normal completion,
    batch-local compute failures, planning abort) each request [i < n]
    receives exactly one terminal outcome and is released exactly once;
    when setup throws [e], the invocation returns [e] without sending any
    response or releasing any request. *)
Theorem execute_exactly_once_after_setup env req_shapes n :
  (setup env = None -> wf_plan req_shapes n (plan env) ->
   forall i, i < n ->
   sent_count i (final_trace env n) = 1 /\ released_count i (final_trace env n) = 1) /\
  (forall e, setup env = Some e ->
   result env n = Ok (Some e) /\
   sends_of (final_trace env n) = [] /\ releases_of (final_trace env n) = []).
Proof.
  split.
  - intros Hs Hw i Hi.
    destruct (final_routing_cover env req_shapes n Hs Hw) as [Hsend Hrel].
    unfold released_count. rewrite sent_count_fst, Hsend, Hrel, count_occ_seq.
    destruct (Nat.leb_spec 0 i), (Nat.ltb_spec i (0 + n)); simpl; split; lia.
  - intros e He.
    destruct (setup_failure_touches_nothing_helper env n e He) as [Hr Ht].
    rewrite Ht. auto.
Qed.

Lemma execute_exactly_once_after_setup_witness :
  (setup scen_env = None /\ wf_plan scen_shapes 3 (plan scen_env) /\ 1 < 3 /\
   sent_count 1 (final_trace scen_env 3) = 1 /\
   released_count 1 (final_trace scen_env 3) = 1) /\
  (setup scen_setup_fail_env = Some error2 /\
   result scen_setup_fail_env 3 = Ok (Some error2) /\
   sends_of (final_trace scen_setup_fail_env 3) = [] /\
   releases_of (final_trace scen_setup_fail_env 3) = []).
Proof.
  assert (Hs : setup scen_env = None) by reflexivity.
  assert (Hw : wf_plan scen_shapes 3 (plan scen_env))
    by (split; [reflexivity | split; [reflexivity | repeat constructor]]).
  assert (He : setup scen_setup_fail_env = Some error2) by reflexivity.
  split.
  - split; [exact Hs|]. split; [exact Hw|]. split; [lia|].
    exact (proj1 (execute_exactly_once_after_setup scen_env scen_shapes 3) Hs Hw 1
             ltac:(lia)).
  - split; [exact He|].
    exact (proj2 (execute_exactly_once_after_setup scen_setup_fail_env scen_shapes 3)
             error2 He).
Defined.

(** ** C2 *)

Lemma batch_trace_failure_stats env k b t n e :
  compute env k = StageFail e \/ compute env k = PredictFail e \/
  compute env k = SyncFail e ->
  exists t3 t4, stats_of (batch_trace env k b t n)
                = [EStatReqs (batch_requests b) false (clk env t) (clk env t) t3 t4].
Proof.
  unfold batch_trace. intros [H|[H|H]]; rewrite H; proj_simpl; eauto.
Qed.

(** C2: when the compute step of the [k]-th batch throws [e], the loop
    iteration completes: error responses carrying [e] go to exactly the
    requests of the extent, [end_request] moves to the extent's end, a
    failure statistic is reported for the extent, the extent's requests are
    released, and the loop goes on with the next batch from the resulting
    state; an invocation whose planner ends normally returns success. *)
Theorem compute_failure_is_batch_local env k b s e :
  compute env k = StageFail e \/ compute env k = PredictFail e \/
  compute env k = SyncFail e ->
  fst (process_batch env k b s) = Ok tt /\
  (exists seg t3 t4,
      trace (snd (process_batch env k b s)) = trace s ++ seg /\
      sends_of seg = map (fun i => (i, RErr e)) (batch_requests b) /\
      end_request (snd (process_batch env k b s)) = snd (extent b) /\
      stats_of seg = [EStatReqs (batch_requests b) false
                        (clk env (tick s)) (clk env (tick s)) t3 t4] /\
      releases_of seg = batch_requests b) /\
  (forall bs, process_batches env k (b :: bs) s
              = process_batches env (S k) bs (snd (process_batch env k b s))) /\
  (forall n, setup env = None -> plan_end (plan env) = None -> result env n = Ok None).
Proof.
  intros Hc. rewrite process_batch_eq. simpl. split; [reflexivity|]. split.
  - destruct (batch_trace_failure_stats env k b (tick s) (nstat s) e Hc) as (t3 & t4 & Hst).
    exists (batch_trace env k b (tick s) (nstat s)), t3, t4.
    rewrite batch_trace_sends, batch_trace_releases.
    repeat split; auto.
    destruct Hc as [H|[H|H]]; rewrite H; reflexivity.
  - split.
    + intros bs. simpl. unfold bind at 1. rewrite process_batch_eq. reflexivity.
    + intros n Hs Hp. exact (proj1 (run_done env n Hs Hp)).
Qed.

Lemma compute_failure_is_batch_local_witness :
  compute scen_env 1 = PredictFail error1 /\
  fst (process_batch scen_env 1 (mkBatch (2, 3) [[8; 5]]%Z) init_st) = Ok tt.
Proof.
  assert (Hc : compute scen_env 1 = StageFail error1 \/
               compute scen_env 1 = PredictFail error1 \/
               compute scen_env 1 = SyncFail error1) by (right; left; reflexivity).
  split; [reflexivity|].
  exact (proj1 (compute_failure_is_batch_local scen_env 1 (mkBatch (2, 3) [[8; 5]]%Z)
                  init_st error1 Hc)).
Defined.

(** ** C3 *)

Lemma filter_none {A} (f : A -> bool) l :
  (forall x, In x l -> f x = false) -> filter f l = [].
Proof.
  induction l as [|x l IH]; intros H; simpl; auto.
  rewrite (H x (or_introl eq_refl)). apply IH. intros y Hy. apply H. right; exact Hy.
Qed.

(** C3: when the planner throws [e], every request from [end_request] (the
    end of the last handled extent) to [n] gets the same error response
    [e] and is released, none of those requests is covered by a prediction
    call, one aggregate failure statistic is reported for that remainder,
    the invocation returns [e], and the routing of the requests handled
    before is the one of the batch loop. *)
Theorem planning_failure_aborts_remainder env req_shapes n e :
  setup env = None -> plan_end (plan env) = Some e ->
  wf_plan req_shapes n (plan env) ->
  let bs := batches (plan env) in
  let er := chain_end 0 bs in
  let rem := seq er (n - er) in
  result env n = Ok (Some e) /\
  (exists post te,
      final_trace env n = loop_trace env 0 bs 1 0 ++ post /\
      sends_of post = map (fun i => (i, RErr e)) rem /\
      releases_of post = rem /\
      predicts_of post = [] /\
      stats_of post = [EStatReqs rem false (clk env 0) (clk env 0) te te]) /\
  (forall k x, In (k, x) (predicts_of (final_trace env n)) -> snd x <= er) /\
  (forall i, i < er ->
     filter (fun p => Nat.eqb (fst p) i) (sends_of (final_trace env n))
     = filter (fun p => Nat.eqb (fst p) i) (expected_sends env 0 bs)).
Proof.
  intros Hs Hp (Hc & _ & _) bs er rem.
  destruct (run_abort env n e Hs Hp) as [Hr Ht]. split; [exact Hr|].
  split; [|split].
  - eexists. eexists. split; [exact Ht|]. proj_simpl.
    rewrite ?app_nil_r. repeat split; reflexivity.
  - intros k x. rewrite Ht. proj_simpl. rewrite app_nil_r. intros Hin.
    destruct (loop_trace_predicts _ _ _ _ _ _ _ Hin) as (b & Hb & ->).
    apply chain_ok_bound; assumption.
  - intros i Hi. rewrite Ht. proj_simpl.
    rewrite loop_trace_sends, ?app_nil_r, filter_app.
    rewrite (filter_none _ (map (fun i => (i, RErr e)) _)); [apply app_nil_r|].
    (* every request of the remainder is at least [er] *)
    intros [j r] Hj. apply in_map_iff in Hj as (j' & Hj' & Hin).
    inversion Hj'; subst. apply in_seq in Hin.
    simpl. apply Nat.eqb_neq. unfold er, bs in Hi. lia.
Qed.

Lemma planning_failure_aborts_remainder_witness :
  setup scen_abort_env = None /\ plan_end (plan scen_abort_env) = Some error2 /\
  wf_plan scen_shapes 3 (plan scen_abort_env) /\
  result scen_abort_env 3 = Ok (Some error2).
Proof.
  assert (Hs : setup scen_abort_env = None) by reflexivity.
  assert (Hp : plan_end (plan scen_abort_env) = Some error2) by reflexivity.
  assert (Hw : wf_plan scen_shapes 3 (plan scen_abort_env))
    by (split; [reflexivity | split; [simpl; lia | repeat constructor]]).
  split; [exact Hs|]. split; [exact Hp|]. split; [exact Hw|].
  exact (proj1 (planning_failure_aborts_remainder scen_abort_env scen_shapes 3 error2
                  Hs Hp Hw)).
Defined.

(** ** C8 *)


(** C8: when [get_instance_state], [StateForModel] or
    [get_native_memory_for_instance] throws [e], the entry point returns
    [e] and nothing is observable: no response of any kind is sent and no
    request is released (the trace is empty). *)
Theorem setup_failure_touches_nothing env n e :
  setup env = Some e ->
  result env n = Ok (Some e) /\ final_trace env n = [] /\
  sends_of (final_trace env n) = [] /\ releases_of (final_trace env n) = [].
Proof.
  intros He. unfold result, final_trace. rewrite (run_setup_fail env n e He).
  simpl. auto.
Qed.

Lemma setup_failure_touches_nothing_witness :
  setup scen_setup_fail_env = Some error2 /\
  final_trace scen_setup_fail_env 3 = [].
Proof.
  assert (He : setup scen_setup_fail_env = Some error2) by reflexivity.
  split; [exact He|].
  exact (proj1 (proj2 (setup_failure_touches_nothing scen_setup_fail_env 3 error2 He))).
Defined.

(** ** C9 *)

(** C9: when the planner yields no batch and ends normally, the entry point
    returns success and the only statistic reported is the aggregate one,
    with unit count 0 and compute start equal to the invocation's start
    timestamp (the first clock read, [clk env 0]). *)
Theorem no_batches_reports_zero env n :
  setup env = None -> batches (plan env) = [] -> plan_end (plan env) = None ->
  result env n = Ok None /\
  exists te, stats_of (final_trace env n)
             = [EStatBatch 0 (clk env 0) (clk env 0) te te].
Proof.
  intros Hs Hb Hp. destruct (run_done env n Hs Hp) as [Hr Ht]. split; [exact Hr|].
  rewrite Ht, Hb. simpl. rewrite stats_of_log. eauto.
Qed.

Lemma no_batches_reports_zero_witness :
  setup scen_empty_env = None /\ batches (plan scen_empty_env) = [] /\
  plan_end (plan scen_empty_env) = None /\ result scen_empty_env 0 = Ok None.
Proof.
  assert (Hs : setup scen_empty_env = None) by reflexivity.
  assert (Hb : batches (plan scen_empty_env) = []) by reflexivity.
  assert (Hp : plan_end (plan scen_empty_env) = None) by reflexivity.
  split; [exact Hs|]. split; [exact Hb|]. split; [exact Hp|].
  exact (proj1 (no_batches_reports_zero scen_empty_env 0 Hs Hb Hp)).
Defined.

(** ** C4 *)

(** C4: for every batch of a well-formed plan and every request [i] of its
    extent, the output shape planned for [i] (lines 190-199) has first
    dimension the row count of [i]'s input (its first input dimension),
    followed by [num_class] exactly when [predict_proba] is set. *)
Theorem output_shape_per_request req_shapes n p pp nc b i :
  wf_plan req_shapes n p -> In b (batches p) -> In i (batch_requests b) ->
  nth_error (output_shapes pp nc (shapes b)) (i - fst (extent b))
  = Some (if pp then [hd 0%Z (nth i req_shapes []); nc]
          else [hd 0%Z (nth i req_shapes [])]).
Proof.
  intros (_ & _ & Hf) Hb Hi.
  rewrite Forall_forall in Hf. rewrite (Hf b Hb).
  unfold output_shapes. rewrite map_map, nth_error_map.
  unfold batch_requests in *. apply in_seq in Hi.
  rewrite nth_error_nth' with (d := 0) by (rewrite length_seq; lia).
  rewrite seq_nth by lia. simpl. unfold output_shape.
  replace (fst (extent b) + (i - fst (extent b))) with i by lia.
  destruct pp; reflexivity.
Qed.

Lemma output_shape_per_request_witness :
  wf_plan scen_shapes 3 scen_plan /\ In (mkBatch (0, 2) [[4; 5]; [1; 5]]%Z) (batches scen_plan) /\
  In 1 (batch_requests (mkBatch (0, 2) [[4; 5]; [1; 5]]%Z)) /\
  nth_error (output_shapes true 3%Z [[4; 5]; [1; 5]]%Z) 1 = Some [1; 3]%Z.
Proof.
  assert (Hw : wf_plan scen_shapes 3 scen_plan)
    by (split; [reflexivity | split; [reflexivity | repeat constructor]]).
  assert (Hb : In (mkBatch (0, 2) [[4; 5]; [1; 5]]%Z) (batches scen_plan))
    by (simpl; left; reflexivity).
  assert (Hi : In 1 (batch_requests (mkBatch (0, 2) [[4; 5]; [1; 5]]%Z)))
    by (simpl; right; left; reflexivity).
  split; [exact Hw|]. split; [exact Hb|]. split; [exact Hi|].
  exact (output_shape_per_request scen_shapes 3 scen_plan true 3%Z _ 1 Hw Hb Hi).
Defined.

(** ** C5 *)

(** Units of the batches whose compute step succeeded, counted like
    [total_inference_count]. *)
Fixpoint successful_rows (env : Env) (k : nat) (acc : Z) (bs : list Batch) : Z :=
  match bs with
  | [] => acc
  | b :: bs' =>
      successful_rows env (S k)
        (match compute env k with COk => add_rows acc (shapes b) | _ => acc end) bs'
  end.

(** C5 (as stated, refuted): "the aggregate statistic's unit count counts
    only successfully handled units".  In the scenario of the spec (rows
    4, 1, 8; the second batch fails) the aggregate count is 13, whereas the
    successful units are 4 + 1 = 5: [total_inference_count] is incremented
    while the output shapes are planned (line 193), before compute. *)
Lemma aggregate_count_includes_failed_batches :
  In (EStatBatch 13 100 100 109 109) (final_trace scen_env 3) /\
  successful_rows scen_env 0 0 (batches (plan scen_env)) = 5%Z.
Proof. vm_compute. split; [auto 20 | reflexivity]. Qed.

(** C5 (amended): when the batch loop completes normally, the entry point
    returns success and the last statistic reported is the aggregate one:
    unit count the first input dimension summed (modulo 2^64) over every
    request of every batch the planner yielded, whether its compute step
    succeeded or failed; batch-enter and compute-enter are the invocation's
    start timestamp, compute-exit and batch-exit both the end timestamp
    read after the loop. *)
Theorem aggregate_statistic_on_completion env n :
  setup env = None -> plan_end (plan env) = None ->
  let bs := batches (plan env) in
  result env n = Ok None /\
  exists pre,
    stats_of (final_trace env n)
    = pre ++ [EStatBatch (add_batch_rows 0 bs) (clk env 0) (clk env 0)
                (clk env (S (loop_ticks env 0 bs))) (clk env (S (loop_ticks env 0 bs)))].
Proof.
  intros Hs Hp bs. destruct (run_done env n Hs Hp) as [Hr Ht]. split; [exact Hr|].
  rewrite Ht. proj_simpl. rewrite ?app_nil_r. eauto.
Qed.

Lemma aggregate_statistic_on_completion_witness :
  setup scen_env = None /\ plan_end (plan scen_env) = None /\
  result scen_env 3 = Ok None.
Proof.
  assert (Hs : setup scen_env = None) by reflexivity.
  assert (Hp : plan_end (plan scen_env) = None) by reflexivity.
  split; [exact Hs|]. split; [exact Hp|].
  exact (proj1 (aggregate_statistic_on_completion scen_env 3 Hs Hp)).
Defined.

(** ** C6 *)

(** The same collaborators with another statistics sink. *)
Definition with_stat_fail (env : Env) (f : nat -> option TritonError) : Env :=
  mkEnv (clk env) (setup env) (predict_proba env) (num_class env) (plan env)
        (compute env) f.

Lemma expected_sends_compute env env' k bs :
  compute env = compute env' -> expected_sends env k bs = expected_sends env' k bs.
Proof.
  intros H. revert k; induction bs as [|b bs IH]; intros k; simpl; auto.
  rewrite H, IH. reflexivity.
Qed.

(** C6: every statistics call is wrapped so that it always completes,
    logging the error when the sink throws; and changing which statistics
    calls fail changes neither the entry point's return value, nor the
    responses routed (requests, payloads and order), nor the releases. *)
Theorem statistics_failures_are_contained env f n :
  (forall reqs ok t1 t2 t3 t4 s,
     report_logged (report_statistics_reqs env reqs ok t1 t2 t3 t4) s =
     (Ok tt, mkSt (trace s ++ EStatReqs reqs ok t1 t2 t3 t4 :: stat_log env (nstat s))
                  (tick s) (S (nstat s)) (responses s) (end_request s)
                  (total_inference_count s))) /\
  (forall z t1 t2 t3 t4 s,
     report_logged (report_statistics_count env z t1 t2 t3 t4) s =
     (Ok tt, mkSt (trace s ++ EStatBatch z t1 t2 t3 t4 :: stat_log env (nstat s))
                  (tick s) (S (nstat s)) (responses s) (end_request s)
                  (total_inference_count s))) /\
  result (with_stat_fail env f) n = result env n /\
  sends_of (final_trace (with_stat_fail env f) n) = sends_of (final_trace env n) /\
  releases_of (final_trace (with_stat_fail env f) n) = releases_of (final_trace env n).
Proof.
  split; [intros; apply report_reqs_logged_eq|].
  split; [intros; apply report_count_logged_eq|].
  destruct (setup env) as [e|] eqn:Hs.
  - assert (Hs' : setup (with_stat_fail env f) = Some e) by exact Hs.
    unfold result, final_trace.
    rewrite (run_setup_fail _ n e Hs), (run_setup_fail _ n e Hs'). auto.
  - assert (Hs' : setup (with_stat_fail env f) = None) by exact Hs.
    destruct (plan_end (plan env)) as [e|] eqn:Hp.
    + assert (Hp' : plan_end (plan (with_stat_fail env f)) = Some e) by exact Hp.
      destruct (run_abort _ n e Hs Hp) as [Hr Ht].
      destruct (run_abort _ n e Hs' Hp') as [Hr' Ht'].
      rewrite Hr, Hr', Ht, Ht'. proj_simpl.
      rewrite !loop_trace_sends, !loop_trace_releases,
        (expected_sends_compute (with_stat_fail env f) env) by reflexivity. auto.
    + assert (Hp' : plan_end (plan (with_stat_fail env f)) = None) by exact Hp.
      destruct (run_done _ n Hs Hp) as [Hr Ht].
      destruct (run_done _ n Hs' Hp') as [Hr' Ht'].
      rewrite Hr, Hr', Ht, Ht'. proj_simpl.
      rewrite !loop_trace_sends, !loop_trace_releases,
        (expected_sends_compute (with_stat_fail env f) env) by reflexivity. auto.
Qed.

(** ** C7 *)

(** C7: when the compute step of the [k]-th batch succeeds, its events are
    the staging of the output batch, the prediction call, the completed
    sync, and only then the success responses of the extent; the rest of
    the iteration sends nothing.  A success response is routed only for a
    batch whose compute step (sync included) succeeded. *)
Theorem sync_before_success_responses env k b s :
  (compute env k = COk ->
   exists rest,
     trace (snd (process_batch env k b s)) =
     trace s ++ [EOutput k (output_shapes (predict_proba env) (num_class env) (shapes b));
                 EPredict k (extent b); ESync k]
             ++ map (fun i => ESend i ROk) (batch_requests b) ++ rest /\
     sends_of rest = []) /\
  (forall i, In (i, ROk) (sends_of (trace (snd (process_batch env k b s))))
             -> In (i, ROk) (sends_of (trace s)) \/ compute env k = COk).
Proof.
  rewrite process_batch_eq. simpl. split.
  - intros Hc. unfold batch_trace. rewrite Hc. eexists. split; [reflexivity|].
    proj_simpl. reflexivity.
  - intros i. rewrite sends_of_app, batch_trace_sends, in_app_iff.
    intros [H|H]; [left; exact H|right].
    apply in_map_iff in H as (j & Hj & _). inversion Hj as [[Hij Hr]].
    destruct (compute env k); simpl in Hr; congruence.
Qed.

Lemma sync_before_success_responses_witness :
  compute scen_env 0 = COk /\
  exists rest,
    trace (snd (process_batch scen_env 0 (mkBatch (0, 2) [[4; 5]; [1; 5]]%Z) init_st)) =
    [EOutput 0 [[4]; [1]]%Z; EPredict 0 (0, 2); ESync 0]
      ++ [ESend 0 ROk; ESend 1 ROk] ++ rest /\ sends_of rest = [].
Proof.
  assert (Hc : compute scen_env 0 = COk) by reflexivity.
  split; [exact Hc|].
  exact (proj1 (sync_before_success_responses scen_env 0
                  (mkBatch (0, 2) [[4; 5]; [1; 5]]%Z) init_st) Hc).
Defined.

(** ** C10 *)

(** A failure statistic has equal batch-enter and compute-enter stamps. *)
Definition fail_stat_ok (ev : Event) : Prop :=
  match ev with
  | EStatReqs _ false t1 t2 _ _ => t1 = t2
  | _ => True
  end.

Lemma fail_stat_ok_map {A} (g : A -> Event) l :
  (forall x, fail_stat_ok (g x)) -> Forall fail_stat_ok (map g l).
Proof. intros H. apply Forall_map, Forall_forall. auto. Qed.

Lemma fail_stat_ok_log env n : Forall fail_stat_ok (stat_log env n).
Proof. unfold stat_log; destruct (stat_fail env n); repeat constructor. Qed.

Lemma fail_stat_ok_batch env k b t n : Forall fail_stat_ok (batch_trace env k b t n).
Proof.
  unfold batch_trace.
  destruct (compute env k); repeat (apply Forall_app; split);
    repeat constructor; try apply fail_stat_ok_log;
    apply fail_stat_ok_map; simpl; auto.
Qed.

Lemma fail_stat_ok_loop env k bs t n : Forall fail_stat_ok (loop_trace env k bs t n).
Proof.
  revert k t n; induction bs as [|b bs IH]; intros k t n; simpl; [constructor|].
  apply Forall_app; split; [apply fail_stat_ok_batch | apply IH].
Qed.

(** C10: every failure statistic of an invocation has compute-enter equal
    to batch-enter; for a compute failure of a batch both are the batch's
    start timestamp (the first clock read of the iteration, [clk env (tick s)]);
    on the planning-abort path both are the invocation's start timestamp
    [clk env 0] and compute-exit equals batch-exit. *)
Theorem failure_statistics_timestamps env n :
  (forall reqs t1 t2 t3 t4,
     In (EStatReqs reqs false t1 t2 t3 t4) (final_trace env n) -> t1 = t2) /\
  (forall k b s e,
     compute env k = StageFail e \/ compute env k = PredictFail e \/
     compute env k = SyncFail e ->
     exists seg t3 t4,
       trace (snd (process_batch env k b s)) = trace s ++ seg /\
       stats_of seg = [EStatReqs (batch_requests b) false
                         (clk env (tick s)) (clk env (tick s)) t3 t4]) /\
  (forall e, setup env = None -> plan_end (plan env) = Some e ->
     let er := chain_end 0 (batches (plan env)) in
     exists pre te,
       stats_of (final_trace env n)
       = pre ++ [EStatReqs (seq er (n - er)) false (clk env 0) (clk env 0) te te]).
Proof.
  split; [|split].
  - intros reqs t1 t2 t3 t4 Hin.
    assert (Hall : Forall fail_stat_ok (final_trace env n)).
    { destruct (setup env) as [e|] eqn:Hs.
      - rewrite (proj2 (setup_failure_touches_nothing_helper env n e Hs)).
        constructor.
      - destruct (plan_end (plan env)) as [e|] eqn:Hp.
        + rewrite (proj2 (run_abort env n e Hs Hp)).
          apply Forall_app; split; [apply fail_stat_ok_loop|].
          apply Forall_app; split; [apply fail_stat_ok_map; simpl; auto|].
          constructor; [reflexivity|].
          apply Forall_app; split; [apply fail_stat_ok_log|].
          apply fail_stat_ok_map; simpl; auto.
        + rewrite (proj2 (run_done env n Hs Hp)).
          apply Forall_app; split; [apply fail_stat_ok_loop|].
          constructor; [exact I | apply fail_stat_ok_log]. }
    rewrite Forall_forall in Hall. exact (Hall _ Hin).
  - intros k b s e Hc. rewrite process_batch_eq. simpl.
    destruct (batch_trace_failure_stats env k b (tick s) (nstat s) e Hc) as (t3 & t4 & Hst).
    eauto.
  - intros e Hs Hp er. rewrite (proj2 (run_abort env n e Hs Hp)). proj_simpl.
    rewrite ?app_nil_r. eauto.
Qed.

Lemma failure_statistics_timestamps_witness :
  compute scen_env 1 = PredictFail error1 /\
  exists seg t3 t4,
    trace (snd (process_batch scen_env 1 (mkBatch (2, 3) [[8; 5]]%Z) init_st))
    = trace init_st ++ seg /\
    stats_of seg = [EStatReqs [2] false (clk scen_env 0) (clk scen_env 0) t3 t4].
Proof.
  assert (Hc : compute scen_env 1 = StageFail error1 \/
               compute scen_env 1 = PredictFail error1 \/
               compute scen_env 1 = SyncFail error1) by (right; left; reflexivity).
  split; [reflexivity|].
  exact (proj1 (proj2 (failure_statistics_timestamps scen_env 3))
           1 (mkBatch (2, 3) [[8; 5]]%Z) init_st error1 Hc).
Defined.

(** * Further properties of the execute entry point *)

(** What the loop hands to the prediction engine, batch by batch. *)
Fixpoint expected_predicts (env : Env) (k : nat) (bs : list Batch) : list (nat * (nat * nat)) :=
  match bs with
  | [] => []
  | b :: bs' => match compute env k with StageFail _ => [] | _ => [(k, extent b)] end
                ++ expected_predicts env (S k) bs'
  end.

Definition syncs_of (tr : list Event) : list nat :=
  flat_map (fun ev => match ev with ESync k => [k] | _ => [] end) tr.

(** Ordinals of the batches whose compute step fully succeeded. *)
Fixpoint expected_syncs (env : Env) (k : nat) (bs : list Batch) : list nat :=
  match bs with
  | [] => []
  | b :: bs' => match compute env k with COk => [k] | _ => [] end
                ++ expected_syncs env (S k) bs'
  end.

Lemma syncs_of_app l1 l2 : syncs_of (l1 ++ l2) = syncs_of l1 ++ syncs_of l2.
Proof. apply flat_map_app. Qed.
Lemma syncs_of_sends r l : syncs_of (map (fun i => ESend i r) l) = [].
Proof. induction l; simpl; auto. Qed.
Lemma syncs_of_releases l : syncs_of (map ERelease l) = [].
Proof. induction l; simpl; auto. Qed.
Lemma syncs_of_log env n : syncs_of (stat_log env n) = [].
Proof. unfold stat_log; destruct (stat_fail env n); reflexivity. Qed.
Hint Rewrite syncs_of_app syncs_of_sends syncs_of_releases syncs_of_log : proj.

Lemma loop_trace_predicts_eq env k bs t n :
  predicts_of (loop_trace env k bs t n) = expected_predicts env k bs.
Proof.
  revert k t n; induction bs as [|b bs IH]; intros k t n; simpl; auto.
  rewrite predicts_of_app, batch_trace_predicts, IH. reflexivity.
Qed.

Lemma loop_trace_syncs env k bs t n :
  syncs_of (loop_trace env k bs t n) = expected_syncs env k bs.
Proof.
  revert k t n; induction bs as [|b bs IH]; intros k t n; simpl; auto.
  rewrite syncs_of_app, IH. f_equal.
  unfold batch_trace; destruct (compute env k); proj_simpl; reflexivity.
Qed.

Lemma loop_trace_stats_length env k bs t n :
  length (stats_of (loop_trace env k bs t n)) = length bs.
Proof.
  revert k t n; induction bs as [|b bs IH]; intros k t n; simpl; auto.
  rewrite stats_of_app, length_app, IH.
  unfold batch_trace; destruct (compute env k); proj_simpl; reflexivity.
Qed.

(** Extra property: the entry point always returns (no exception escapes),
    and the only error it can return is the one thrown by the setup calls
    or by the planner; errors of staging, prediction, sync and statistics
    are never returned. *)
Theorem execute_returned_error env n :
  (result env n = Ok None \/ exists e, result env n = Ok (Some e)) /\
  (forall e, result env n = Ok (Some e) ->
     setup env = Some e \/ (setup env = None /\ plan_end (plan env) = Some e)).
Proof.
  destruct (setup env) as [e0|] eqn:Hs.
  - rewrite (proj1 (setup_failure_touches_nothing_helper env n e0 Hs)).
    split; [right; eauto|]. intros e H. inversion H. auto.
  - destruct (plan_end (plan env)) as [e0|] eqn:Hp.
    + rewrite (proj1 (run_abort env n e0 Hs Hp)).
      split; [right; eauto|]. intros e H. inversion H. auto.
    + rewrite (proj1 (run_done env n Hs Hp)).
      split; [left; reflexivity|]. intros e H. discriminate H.
Qed.

(** Extra property: once setup succeeds, the statistics sink is called
    exactly once per yielded batch plus once more (the aggregate record,
    or the record of the aborted remainder); when setup fails it is never
    called. *)
Theorem statistics_call_count env n :
  length (stats_of (final_trace env n))
  = match setup env with
    | Some _ => 0
    | None => S (length (batches (plan env)))
    end.
Proof.
  destruct (setup env) as [e|] eqn:Hs.
  - rewrite (proj2 (setup_failure_touches_nothing_helper env n e Hs)). reflexivity.
  - destruct (plan_end (plan env)) as [e|] eqn:Hp.
    + rewrite (proj2 (run_abort env n e Hs Hp)). proj_simpl.
      rewrite length_app, loop_trace_stats_length. simpl. lia.
    + rewrite (proj2 (run_done env n Hs Hp)). proj_simpl.
      rewrite length_app, loop_trace_stats_length. simpl. lia.
Qed.

(** Extra property: the prediction engine is called once for each yielded
    batch whose output staging succeeded, in batch order and with that
    batch's extent, and never otherwise (not for the aborted remainder);
    the output batch is synced exactly for the batches whose compute step
    fully succeeded. *)
Theorem prediction_calls env n :
  setup env = None ->
  predicts_of (final_trace env n) = expected_predicts env 0 (batches (plan env)) /\
  syncs_of (final_trace env n) = expected_syncs env 0 (batches (plan env)).
Proof.
  intros Hs. destruct (plan_end (plan env)) as [e|] eqn:Hp.
  - rewrite (proj2 (run_abort env n e Hs Hp)). proj_simpl.
    rewrite loop_trace_predicts_eq, loop_trace_syncs, !app_nil_r. auto.
  - rewrite (proj2 (run_done env n Hs Hp)). proj_simpl.
    rewrite loop_trace_predicts_eq, loop_trace_syncs, ?app_nil_r. auto.
Qed.

Lemma prediction_calls_witness :
  setup scen_env = None /\
  predicts_of (final_trace scen_env 3) = [(0, (0, 2)); (1, (2, 3))] /\
  syncs_of (final_trace scen_env 3) = [0].
Proof.
  assert (Hs : setup scen_env = None) by reflexivity.
  destruct (prediction_calls scen_env 3 Hs) as [H1 H2].
  split; [exact Hs|]. rewrite H1, H2. split; reflexivity.
Defined.

Lemma filter_map_pair (i : nat) (r : Resp) (l : list nat) :
  filter (fun p => Nat.eqb (fst p) i) (map (fun j => (j, r)) l)
  = map (fun j => (j, r)) (filter (fun j => Nat.eqb j i) l).
Proof. induction l as [|j l IH]; simpl; auto. destruct (Nat.eqb j i); simpl; congruence. Qed.

Lemma filter_seq_in (f m i : nat) :
  f <= i < f + m -> filter (fun j => Nat.eqb j i) (seq f m) = [i].
Proof.
  revert f; induction m as [|m IH]; intros f H; simpl; [lia|].
  destruct (Nat.eqb_spec f i) as [->|Hne].
  - f_equal. apply filter_none. intros x Hx. apply in_seq in Hx. apply Nat.eqb_neq. lia.
  - apply IH. lia.
Qed.

Lemma chain_ok_lower a bs b :
  chain_ok a bs = true -> In b bs -> a <= fst (extent b).
Proof.
  revert a; induction bs as [|b' bs IH]; intros a H Hin; simpl in *; [tauto|].
  apply andb_prop in H as [H Hc]. apply andb_prop in H as [Hf Hle].
  apply Nat.eqb_eq in Hf. apply Nat.leb_le in Hle.
  destruct Hin as [<-|Hin]; [lia|]. specialize (IH _ Hc Hin). lia.
Qed.

Lemma expected_sends_filter_out env k bs a i :
  chain_ok a bs = true -> i < a \/ chain_end a bs <= i ->
  filter (fun p => Nat.eqb (fst p) i) (expected_sends env k bs) = [].
Proof.
  intros Hc Hi. apply filter_none. intros [j r] Hj.
  assert (Hin : In j (map fst (expected_sends env k bs)))
    by (apply in_map_iff; exists (j, r); auto).
  rewrite expected_sends_fst, (proj2 (chain_ok_cover _ _ Hc)) in Hin.
  apply in_seq in Hin. simpl. apply Nat.eqb_neq. lia.
Qed.

Lemma expected_sends_filter_in env k bs a j b i :
  chain_ok a bs = true -> nth_error bs j = Some b -> In i (batch_requests b) ->
  filter (fun p => Nat.eqb (fst p) i) (expected_sends env k bs)
  = [(i, resp_of (compute env (k + j)))].
Proof.
  revert a k j; induction bs as [|b0 bs IH]; intros a k j Hc Hj Hi;
    [destruct j; discriminate|].
  simpl in Hc. apply andb_prop in Hc as [H Hc]. apply andb_prop in H as [Hf Hle].
  apply Nat.eqb_eq in Hf. apply Nat.leb_le in Hle.
  simpl. rewrite filter_app, filter_map_pair. destruct j as [|j].
  - inversion Hj; subst b0. unfold batch_requests in *. apply in_seq in Hi.
    rewrite filter_seq_in by lia.
    rewrite (expected_sends_filter_out env (S k) bs (snd (extent b)) i Hc) by lia.
    rewrite Nat.add_0_r. reflexivity.
  - simpl in Hj.
    assert (Hb : In b bs) by (eapply nth_error_In; eauto).
    pose proof (chain_ok_lower _ _ _ Hc Hb) as Hlo.
    unfold batch_requests in Hi. apply in_seq in Hi.
    rewrite (filter_none (fun j => Nat.eqb j i) (batch_requests b0)).
    2:{ intros x Hx. unfold batch_requests in Hx. apply in_seq in Hx.
        apply Nat.eqb_neq. lia. }
    simpl. rewrite (IH _ (S k) j Hc Hj) by (unfold batch_requests; apply in_seq; lia).
    rewrite Nat.add_succ_r. reflexivity.
Qed.

(** Extra property: once setup succeeds and the planner keeps to its
    contract, a request covered by the [k]-th batch receives exactly one
    response, a success response exactly when staging, prediction and
    sync of that batch all succeeded and otherwise the error that batch
    threw; this holds whether the planner ends normally or throws later. *)
Theorem request_outcome_follows_batch env req_shapes n k b i :
  setup env = None -> wf_plan req_shapes n (plan env) ->
  nth_error (batches (plan env)) k = Some b -> In i (batch_requests b) ->
  filter (fun p => Nat.eqb (fst p) i) (sends_of (final_trace env n))
  = [(i, resp_of (compute env k))].
Proof.
  intros Hs (Hc & _ & _) Hk Hi.
  pose proof (expected_sends_filter_in env 0 _ 0 k b i Hc Hk Hi) as Hf.
  simpl in Hf.
  destruct (plan_end (plan env)) as [e|] eqn:Hp.
  - rewrite (proj2 (run_abort env n e Hs Hp)). proj_simpl.
    rewrite loop_trace_sends, ?app_nil_r, filter_app, Hf.
    rewrite (filter_none _ (map (fun i => (i, RErr e)) _)); [reflexivity|].
    assert (Hb : In b (batches (plan env))) by (eapply nth_error_In; eauto).
    pose proof (chain_ok_bound _ _ _ Hc Hb) as Hup.
    unfold batch_requests in Hi. apply in_seq in Hi.
    intros [j r] Hj. apply in_map_iff in Hj as (j' & Hj' & Hin).
    inversion Hj'; subst. apply in_seq in Hin. simpl. apply Nat.eqb_neq. lia.
  - rewrite (proj2 (run_done env n Hs Hp)). proj_simpl.
    rewrite loop_trace_sends, ?app_nil_r, Hf. reflexivity.
Qed.

Lemma request_outcome_follows_batch_witness :
  setup scen_env = None /\ wf_plan scen_shapes 3 (plan scen_env) /\
  nth_error (batches (plan scen_env)) 1 = Some (mkBatch (2, 3) [[8; 5]]%Z) /\
  In 2 (batch_requests (mkBatch (2, 3) [[8; 5]]%Z)) /\
  filter (fun p => Nat.eqb (fst p) 2) (sends_of (final_trace scen_env 3))
  = [(2, RErr error1)].
Proof.
  assert (Hs : setup scen_env = None) by reflexivity.
  assert (Hw : wf_plan scen_shapes 3 (plan scen_env))
    by (split; [reflexivity | split; [reflexivity | repeat constructor]]).
  assert (Hk : nth_error (batches (plan scen_env)) 1 = Some (mkBatch (2, 3) [[8; 5]]%Z))
    by reflexivity.
  assert (Hi : In 2 (batch_requests (mkBatch (2, 3) [[8; 5]]%Z))) by (simpl; left; reflexivity).
  split; [exact Hs|]. split; [exact Hw|]. split; [exact Hk|]. split; [exact Hi|].
  exact (request_outcome_follows_batch scen_env scen_shapes 3 1 _ 2 Hs Hw Hk Hi).
Defined.

(** ** Timestamps of the statistics *)

(** The ordering of the four timestamps of a statistics event, read
    against the invocation's first clock read [c0]: batch (or invocation)
    entry first, compute entry next, and both exit timestamps after the
    compute entry; for a successful batch compute exit also precedes batch
    exit.  The two exit timestamps of a failure statistic are two [now()]
    reads in one argument list, so no order is stated between them. *)
Definition ts_ok (c0 : nat) (ev : Event) : Prop :=
  match ev with
  | EStatReqs _ ok t1 t2 t3 t4 =>
      c0 <= t1 /\ t1 <= t2 /\ t2 <= t3 /\ t2 <= t4 /\ (ok = true -> t3 <= t4)
  | EStatBatch _ t1 t2 t3 t4 => c0 <= t1 /\ t1 <= t2 /\ t2 <= t3 /\ t2 <= t4
  | _ => True
  end.

Lemma Forall_map_ts {A} (c0 : nat) (g : A -> Event) (l : list A) :
  (forall x, ts_ok c0 (g x)) -> Forall (ts_ok c0) (map g l).
Proof. intros H. apply Forall_forall. intros y Hy. apply in_map_iff in Hy as (x & <- & _). auto. Qed.

Lemma ts_ok_log c0 env n : Forall (ts_ok c0) (stat_log env n).
Proof. unfold stat_log. destruct (stat_fail env n); repeat constructor. Qed.

Ltac ts_trace Hm :=
  rewrite ?Forall_app; repeat split;
  repeat match goal with
         | |- Forall _ (_ ++ _) => apply Forall_app; split
         | |- Forall _ (map _ _) => apply Forall_map_ts; intros; exact I
         | |- Forall _ (stat_log _ _) => apply ts_ok_log
         | |- Forall _ (_ :: _) => apply Forall_cons
         | |- Forall _ [] => apply Forall_nil
         end;
  simpl; repeat split; intros; try discriminate; apply Hm; lia.

Section Timestamps.
Variable env : Env.
Hypothesis clk_mono : forall a b, a <= b -> clk env a <= clk env b.

Lemma ts_ok_batch k b t n : Forall (ts_ok (clk env 0)) (batch_trace env k b t n).
Proof. unfold batch_trace. destruct (compute env k); ts_trace clk_mono. Qed.

Lemma ts_ok_loop k bs t n : Forall (ts_ok (clk env 0)) (loop_trace env k bs t n).
Proof.
  revert k t n; induction bs as [|b bs IH]; intros k t n; simpl; [constructor|].
  apply Forall_app; split; [apply ts_ok_batch | apply IH].
Qed.

End Timestamps.

(** Extra property: with a monotone clock, every statistics call of an
    invocation (per-batch success or failure, planning abort, aggregate)
    has its timestamps at or after the invocation's start, batch entry no
    later than compute entry, both exit timestamps no earlier than
    compute entry, and for a success compute exit no later than batch
    exit. *)
Theorem statistics_timestamps_ordered env n :
  (forall a b, a <= b -> clk env a <= clk env b) ->
  Forall (ts_ok (clk env 0)) (final_trace env n).
Proof.
  intros Hm. destruct (setup env) as [e|] eqn:Hs.
  - rewrite (proj2 (setup_failure_touches_nothing_helper env n e Hs)). constructor.
  - destruct (plan_end (plan env)) as [e|] eqn:Hp.
    + rewrite (proj2 (run_abort env n e Hs Hp)). apply Forall_app.
      split; [apply ts_ok_loop; exact Hm|]. ts_trace Hm.
    + rewrite (proj2 (run_done env n Hs Hp)). apply Forall_app.
      split; [apply ts_ok_loop; exact Hm|]. ts_trace Hm.
Qed.

Lemma statistics_timestamps_ordered_witness :
  (forall a b, a <= b -> clk scen_env a <= clk scen_env b) /\
  Forall (ts_ok (clk scen_env 0)) (final_trace scen_env 3).
Proof.
  assert (Hm : forall a b, a <= b -> clk scen_env a <= clk scen_env b)
    by (intros a b H; simpl; lia).
  split; [exact Hm|]. exact (statistics_timestamps_ordered scen_env 3 Hm).
Defined.

(** ** The aggregate inference count in closed form *)

(** Sum of the leading dimensions of a list of input shapes, unbounded. *)
Definition sum_rows (shs : list (list Z)) : Z :=
  fold_right (fun sh acc => (hd 0%Z sh + acc)%Z) 0%Z shs.

Fixpoint batch_rows (bs : list Batch) : Z :=
  match bs with
  | [] => 0%Z
  | b :: bs' => (sum_rows (shapes b) + batch_rows bs')%Z
  end.

Lemma wrap64_add_l a x : wrap64 (wrap64 a + x) = wrap64 (a + x).
Proof. unfold wrap64. apply Z.add_mod_idemp_l. lia. Qed.

Lemma add_rows_wrap a shs : add_rows (wrap64 a) shs = wrap64 (a + sum_rows shs).
Proof.
  unfold add_rows. revert a; induction shs as [|sh shs IH]; intros a; simpl.
  - rewrite Z.add_0_r. reflexivity.
  - rewrite wrap64_add_l. fold (add_rows (wrap64 (a + hd 0%Z sh)) shs).
    unfold add_rows. rewrite IH, Z.add_assoc. reflexivity.
Qed.

Lemma add_batch_rows_wrap a bs :
  add_batch_rows (wrap64 a) bs = wrap64 (a + batch_rows bs).
Proof.
  unfold add_batch_rows. revert a; induction bs as [|b bs IH]; intros a; simpl.
  - rewrite Z.add_0_r. reflexivity.
  - rewrite add_rows_wrap, IH, Z.add_assoc. reflexivity.
Qed.

Ltac no_event H :=
  repeat match type of H with
         | In _ (_ ++ _) => apply in_app_iff in H; destruct H as [H|H]
         | In _ (map _ _) =>
             let x := fresh "x" in
             apply in_map_iff in H; destruct H as (x & H & _); discriminate H
         | In _ (stat_log _ _) =>
             unfold stat_log in H; destruct (stat_fail _ _); simpl in H
         | In _ (_ :: _) => destruct H as [H|H]; [discriminate H|]
         | In _ [] => destruct H
         | _ = _ \/ _ => destruct H as [H|H]; [discriminate H|]
         | False => destruct H
         end.

Lemma loop_trace_no_aggregate env k bs t n c t1 t2 t3 t4 :
  ~ In (EStatBatch c t1 t2 t3 t4) (loop_trace env k bs t n).
Proof.
  revert k t n; induction bs as [|b bs IH]; intros k t n H; simpl in H; [exact H|].
  apply in_app_iff in H as [H|H]; [|exact (IH _ _ _ H)].
  unfold batch_trace in H. destruct (compute env k); no_event H.
Qed.

(** Extra property: when the batch loop completes, the count carried by
    the aggregate statistics call is the sum of the leading dimensions of
    every input shape of every yielded batch, reduced modulo 2^64 (the
    wrap-around of the [std::size_t] accumulator; a negative leading
    dimension is converted the same way). *)
Theorem aggregate_count_closed_form env n c t1 t2 t3 t4 :
  setup env = None -> plan_end (plan env) = None ->
  In (EStatBatch c t1 t2 t3 t4) (final_trace env n) ->
  c = (batch_rows (batches (plan env)) mod 2 ^ 64)%Z.
Proof.
  intros Hs Hp Hin. rewrite (proj2 (run_done env n Hs Hp)) in Hin.
  apply in_app_iff in Hin as [Hin|Hin].
  - exfalso. exact (loop_trace_no_aggregate _ _ _ _ _ _ _ _ _ _ Hin).
  - destruct Hin as [Hin|Hin].
    + inversion Hin; subst. exact (add_batch_rows_wrap 0 (batches (plan env))).
    + no_event Hin.
Qed.

(** Two requests, one of them with the largest 64-bit row count: the
    aggregate wraps to 1. *)
Definition wrap_plan : Plan :=
  mkPlan [mkBatch (0, 2) [[2 ^ 64 - 1; 1]; [2; 1]]%Z] None.

Definition wrap_env : Env :=
  mkEnv (fun n => n) None false 1%Z wrap_plan (fun _ => COk) (fun _ => None).

Lemma aggregate_count_closed_form_witness :
  setup wrap_env = None /\ plan_end (plan wrap_env) = None /\
  In (EStatBatch 1%Z 0 0 5 5) (final_trace wrap_env 2) /\
  (1 = batch_rows (batches (plan wrap_env)) mod 2 ^ 64)%Z.
Proof.
  assert (Hs : setup wrap_env = None) by reflexivity.
  assert (Hp : plan_end (plan wrap_env) = None) by reflexivity.
  assert (Hin : In (EStatBatch 1%Z 0 0 5 5) (final_trace wrap_env 2)).
  { vm_compute. do 8 right. left. reflexivity. }
  split; [exact Hs|]. split; [exact Hp|]. split; [exact Hin|].
  exact (aggregate_count_closed_form wrap_env 2 1%Z 0 0 5 5 Hs Hp Hin).
Defined.

(** ** Which requests are ever touched *)

(** Extra property: a request is sent a response or released only if it is
    covered by a batch the planner yielded, or, when the planner throws
    after its last batch, it lies in the unprocessed remainder
    [end_request, request_count).  In particular, with a planner that ends
    normally, requests outside every extent receive no response at all, and
    no index at or beyond [request_count] is touched on the abort path. *)
Theorem routing_within_plan env n i :
  In i (map fst (sends_of (final_trace env n))) \/
  In i (releases_of (final_trace env n)) ->
  (exists b, In b (batches (plan env)) /\ In i (batch_requests b)) \/
  (exists e, setup env = None /\ plan_end (plan env) = Some e /\
             chain_end 0 (batches (plan env)) <= i < n).
Proof.
  intros Hin. destruct (setup env) as [e|] eqn:Hs.
  - rewrite (proj2 (setup_failure_touches_nothing_helper env n e Hs)) in Hin.
    simpl in Hin. tauto.
  - assert (Hloop : In i (flat_map batch_requests (batches (plan env))) ->
                    exists b, In b (batches (plan env)) /\ In i (batch_requests b))
      by (intros H; apply in_flat_map in H; exact H).
    destruct (plan_end (plan env)) as [e|] eqn:Hp.
    + rewrite (proj2 (run_abort env n e Hs Hp)) in Hin.
      repeat (autorewrite with proj in Hin; simpl in Hin).
      rewrite loop_trace_sends, loop_trace_releases, ?map_app, expected_sends_fst,
        map_map in Hin.
      simpl in Hin. rewrite map_id, ?app_nil_r in Hin.
      assert (Hrem : In i (seq (chain_end 0 (batches (plan env)))
                              (n - chain_end 0 (batches (plan env)))) ->
                     chain_end 0 (batches (plan env)) <= i < n)
        by (intros H; apply in_seq in H; lia).
      destruct Hin as [Hin|Hin]; apply in_app_iff in Hin as [Hin|Hin];
        try (left; exact (Hloop Hin)); right; exists e; auto.
    + rewrite (proj2 (run_done env n Hs Hp)) in Hin.
      repeat (autorewrite with proj in Hin; simpl in Hin).
      rewrite loop_trace_sends, loop_trace_releases, ?map_app, expected_sends_fst
        in Hin.
      simpl in Hin. rewrite ?app_nil_r in Hin. left. destruct Hin; auto.
Qed.

(** The planner of [scen_abort_env] covers request 0 only and then throws:
    request 2 is touched as part of the remainder. *)
Lemma routing_within_plan_witness :
  (In 2 (map fst (sends_of (final_trace scen_abort_env 3))) \/
   In 2 (releases_of (final_trace scen_abort_env 3))) /\
  ((exists b, In b (batches (plan scen_abort_env)) /\ In 2 (batch_requests b)) \/
   (exists e, setup scen_abort_env = None /\ plan_end (plan scen_abort_env) = Some e /\
              chain_end 0 (batches (plan scen_abort_env)) <= 2 < 3)).
Proof.
  assert (Hin : In 2 (map fst (sends_of (final_trace scen_abort_env 3))) \/
                In 2 (releases_of (final_trace scen_abort_env 3))).
  { right. vm_compute. right. right. left. reflexivity. }
  split; [exact Hin|]. exact (routing_within_plan scen_abort_env 3 2 Hin).
Defined.

(** * The other entry points of src/src/api.cu

    [TRITONBACKEND_Initialize], [TRITONBACKEND_ModelInitialize],
    [TRITONBACKEND_ModelFinalize], [TRITONBACKEND_ModelInstanceInitialize]
    and [TRITONBACKEND_ModelInstanceFinalize], in a monad of their own whose
    trace records the log lines written, the states attached to the model
    or instance, the unload calls and the deletions.  Each helper they call
    (name and version getters, [check_backend_version], [log_info], the
    [Create] factories, the state setters and getters, [UnloadModel],
    [UnloadFILModel]) lives outside this file and is an oracle that either
    returns a value or throws.  Pointers are [nat] ids; a null pointer is
    [None]. *)

Module Lifecycle.

(** Log lines of the entry points, with the values they interpolate. *)
Inductive LogLine :=
| LInitialize (backend_name : nat)
| LModelInitialize (model_name version : nat)
| LModelFinalize
| LInstanceInitialize (instance_name kind : nat) (device_id : Z)
| LInstanceFinalize.

Inductive LEvent :=
| LLog (l : LogLine)
| LSetModelState (p : nat)
| LSetInstanceState (p : nat)
| LUnloadModel (p : nat)
| LUnloadFILModel (p : nat)
| LDeleteModelState (p : nat)
| LDeleteInstanceState (p : nat).

Record LEnv := mkLEnv {
  backend_name : Exc nat;                  (* get_backend_name *)
  backend_version_ok : Exc bool;           (* check_backend_version *)
  log_fail : option TritonError;           (* log_info *)
  model_name : Exc nat;                    (* get_model_name *)
  model_version : Exc nat;                 (* get_model_version *)
  model_create : Exc nat;                  (* ModelState::Create *)
  set_model_fail : option TritonError;     (* set_model_state *)
  model_state_of_model : Exc (option nat); (* get_model_state of the model *)
  unload_model_fail : option TritonError;  (* ModelState::UnloadModel *)
  instance_name : Exc nat;                 (* get_model_instance_name *)
  device_id : Exc Z;                       (* get_device_id *)
  instance_kind : Exc nat;                 (* get_instance_kind *)
  model_state_of_instance : Exc (option nat); (* get_model_state of the instance *)
  instance_create : option nat -> Exc nat; (* ModelInstanceState::Create *)
  set_instance_fail : option TritonError;  (* set_instance_state *)
  instance_state : Exc (option nat);       (* triton_check(TRITONBACKEND_ModelInstanceState) *)
  unload_fil_fail : option TritonError     (* ModelInstanceState::UnloadFILModel *)
}.

Definition LM (A : Type) := list LEvent -> Exc A * list LEvent.

Definition lret {A} (a : A) : LM A := fun tr => (Ok a, tr).

Definition lbind {A B} (m : LM A) (k : A -> LM B) : LM B :=
  fun tr => match m tr with
            | (Ok a, tr') => k a tr'
            | (Throw e, tr') => (Throw e, tr')
            end.

Definition ltry {A} (m : LM A) (h : TritonError -> LM A) : LM A :=
  fun tr => match m tr with
            | (Ok a, tr') => (Ok a, tr')
            | (Throw e, tr') => h e tr'
            end.

Notation "'let+' x ':=' m 'in' k" := (lbind m (fun x => k))
  (at level 200, x name, m at level 100, k at level 200).

(** A helper call that returns [x] or throws. *)
Definition call {A} (x : Exc A) : LM A := fun tr => (x, tr).

(** A helper call with no result: it throws [e], or it takes effect [ev]. *)
Definition effect (o : option TritonError) (ev : LEvent) : LM unit :=
  fun tr => match o with
            | Some e => (Throw e, tr)
            | None => (Ok tt, tr ++ [ev])
            end.

(** [TRITONSERVER_ERROR_UNSUPPORTED], the sixth enumerator of
    [TRITONSERVER_Error_Code], and the message id of
    "triton backend API version does not support this backend". *)
Definition TRITONSERVER_ERROR_UNSUPPORTED : nat := 5.
Definition msg_version_unsupported : nat := 0.
Definition version_error : TritonError :=
  mkError TRITONSERVER_ERROR_UNSUPPORTED msg_version_unsupported.

Section EntryPoints.
Variable env : LEnv.

Definition log_info (l : LogLine) : LM unit := effect (log_fail env) (LLog l).

(** [catch (TritonException& err) { return err.error(); } return nullptr;] *)
Definition entry (body : LM (option TritonError)) : LM (option TritonError) :=
  ltry body (fun e => lret (Some e)).

Definition TRITONBACKEND_Initialize : LM (option TritonError) :=
  entry (
    let+ name := call (backend_name env) in
    let+ _ := log_info (LInitialize name) in
    let+ ok := call (backend_version_ok env) in
    if negb ok then lret (Some version_error) else lret None).

Definition TRITONBACKEND_ModelInitialize : LM (option TritonError) :=
  entry (
    let+ name := call (model_name env) in
    let+ version := call (model_version env) in
    let+ _ := log_info (LModelInitialize name version) in
    let+ p := call (model_create env) in
    let+ _ := effect (set_model_fail env) (LSetModelState p) in
    lret None).

(** [delete] of a possibly null pointer: nothing happens for [nullptr]. *)
Definition delete_model_state (ms : option nat) : LM unit :=
  match ms with
  | Some p => fun tr => (Ok tt, tr ++ [LDeleteModelState p])
  | None => lret tt
  end.

Definition TRITONBACKEND_ModelFinalize : LM (option TritonError) :=
  entry (
    let+ model_state := call (model_state_of_model env) in
    let+ _ := match model_state with
              | Some p => effect (unload_model_fail env) (LUnloadModel p)
              | None => lret tt
              end in
    let+ _ := log_info LModelFinalize in
    let+ _ := delete_model_state model_state in
    lret None).

Definition TRITONBACKEND_ModelInstanceInitialize : LM (option TritonError) :=
  entry (
    let+ name := call (instance_name env) in
    let+ dev := call (device_id env) in
    let+ kind := call (instance_kind env) in
    let+ _ := log_info (LInstanceInitialize name kind dev) in
    let+ model_state := call (model_state_of_instance env) in
    let+ p := call (instance_create env model_state) in
    let+ _ := effect (set_instance_fail env) (LSetInstanceState p) in
    lret None).

Definition TRITONBACKEND_ModelInstanceFinalize : LM (option TritonError) :=
  entry (
    let+ vstate := call (instance_state env) in
    let+ _ := match vstate with
              | Some p =>
                  let+ _ := effect (unload_fil_fail env) (LUnloadFILModel p) in
                  let+ _ := log_info LInstanceFinalize in
                  fun tr => (Ok tt, tr ++ [LDeleteInstanceState p])
              | None => lret tt
              end in
    lret None).

End EntryPoints.

(** Running an entry point from an empty trace. *)
Definition run_entry (m : LM (option TritonError)) : Exc (option TritonError) * list LEvent :=
  m [].


Ltac lc_run :=
  unfold run_entry, TRITONBACKEND_Initialize, TRITONBACKEND_ModelInitialize,
    TRITONBACKEND_ModelFinalize, TRITONBACKEND_ModelInstanceInitialize,
    TRITONBACKEND_ModelInstanceFinalize, entry, log_info, delete_model_state,
    call, effect, lbind, ltry, lret;
  repeat (simpl; match goal with
                 | |- context [match ?x with _ => _ end] => is_var x; destruct x
                 | |- context [match ?f ?a with _ => _ end] =>
                     is_var f; destruct (f a) eqn:?
                 end);
  simpl.

(** Extra property: [TRITONBACKEND_Initialize] succeeds exactly when the
    backend name is read, logged, and the API version check passes; when
    the check fails after the name was read and logged, it returns an
    UNSUPPORTED error with the version message and has written only the
    log line; and whatever happens it writes nothing but the
    [TRITONBACKEND_Initialize: <name>] log line (no state is touched). *)
Theorem initialize_version_gate env :
  (fst (run_entry (TRITONBACKEND_Initialize env)) = Ok None <->
   (exists name, backend_name env = Ok name) /\ log_fail env = None /\
   backend_version_ok env = Ok true) /\
  (forall name, backend_name env = Ok name -> log_fail env = None ->
   backend_version_ok env = Ok false ->
   run_entry (TRITONBACKEND_Initialize env)
   = (Ok (Some version_error), [LLog (LInitialize name)])) /\
  Forall (fun ev => exists name, backend_name env = Ok name /\ ev = LLog (LInitialize name))
         (snd (run_entry (TRITONBACKEND_Initialize env))).
Proof.
  destruct env as [bn vo lf mn mv mc smf msm umf iname did ik msi ic sif ist uff];
    simpl.
  destruct bn as [name|e]; [|lc_run; repeat split; intros;
    repeat match goal with H : _ /\ _ |- _ => destruct H end;
    try discriminate; try constructor; firstorder discriminate].
  destruct lf as [e|]; [lc_run; repeat split; intros; try discriminate;
    try constructor; firstorder discriminate|].
  destruct vo as [[|]|e]; lc_run; repeat split; intros;
    repeat match goal with H : _ /\ _ |- _ => destruct H end;
    try discriminate; try congruence; eauto;
    repeat constructor; eauto.
Qed.

(** Extra property: [TRITONBACKEND_ModelInitialize] reports success
    exactly when it has attached a model state, and then the model state
    attached is the one [ModelState::Create] returned, attached after the
    [ModelInitialize: <name> (version <v>)] log line and nothing else; on
    every failure path no model state is attached. *)
Theorem model_initialize_attaches_on_success env :
  (fst (run_entry (TRITONBACKEND_ModelInitialize env)) = Ok None <->
   exists p, In (LSetModelState p) (snd (run_entry (TRITONBACKEND_ModelInitialize env)))) /\
  (forall p, In (LSetModelState p) (snd (run_entry (TRITONBACKEND_ModelInitialize env))) ->
   exists name version,
     model_name env = Ok name /\ model_version env = Ok version /\
     model_create env = Ok p /\
     snd (run_entry (TRITONBACKEND_ModelInitialize env))
     = [LLog (LModelInitialize name version); LSetModelState p]).
Proof.
  destruct env as [bn vo lf mn mv mc smf msm umf iname did ik msi ic sif ist uff];
    simpl; lc_run; split; try split; intros;
    repeat match goal with
           | H : exists _, _ |- _ => destruct H
           | H : In _ _ |- _ => simpl in H
           | H : _ \/ _ |- _ => destruct H
           | H : False |- _ => destruct H
           | H : LSetModelState _ = LSetModelState _ |- _ => injection H as <-
           end;
    try discriminate; eauto 10; simpl; eauto.
Qed.

(** Extra property: [TRITONBACKEND_ModelInstanceInitialize] reports
    success exactly when it has attached an instance state; that state is
    the one [ModelInstanceState::Create] returned when given the model state
    read from the instance, which is passed on unchecked even when it is
    null; it is attached after the instance log line and nothing else; on
    every failure path no instance state is attached; and when the getters
    and the log succeed, whatever model state [ms] is read (null included)
    is handed to [Create] without a check, and the instance state Create
    returns for it is attached and success is reported. *)
Theorem instance_initialize_attaches_on_success env :
  (fst (run_entry (TRITONBACKEND_ModelInstanceInitialize env)) = Ok None <->
   exists p, In (LSetInstanceState p)
               (snd (run_entry (TRITONBACKEND_ModelInstanceInitialize env)))) /\
  (forall p, In (LSetInstanceState p)
               (snd (run_entry (TRITONBACKEND_ModelInstanceInitialize env))) ->
   exists name dev kind ms,
     instance_name env = Ok name /\ device_id env = Ok dev /\
     instance_kind env = Ok kind /\ model_state_of_instance env = Ok ms /\
     instance_create env ms = Ok p /\
     snd (run_entry (TRITONBACKEND_ModelInstanceInitialize env))
     = [LLog (LInstanceInitialize name kind dev); LSetInstanceState p]) /\
  (forall name dev kind ms p,
   instance_name env = Ok name -> device_id env = Ok dev ->
   instance_kind env = Ok kind -> log_fail env = None ->
   model_state_of_instance env = Ok ms -> instance_create env ms = Ok p ->
   set_instance_fail env = None ->
   run_entry (TRITONBACKEND_ModelInstanceInitialize env)
   = (Ok None, [LLog (LInstanceInitialize name kind dev); LSetInstanceState p])).
Proof.
  destruct env as [bn vo lf mn mv mc smf msm umf iname did ik msi ic sif ist uff];
    simpl; lc_run; split; try split; intros;
    repeat match goal with
           | H : exists _, _ |- _ => destruct H
           | H : In _ _ |- _ => simpl in H
           | H : _ \/ _ |- _ => destruct H
           | H : False |- _ => destruct H
           | H : LSetInstanceState _ = LSetInstanceState _ |- _ => injection H as <-
           end;
    try discriminate; eauto 10; simpl; eauto.
  all: try (do 4 eexists; repeat split; eauto; fail).
  all: intros; subst; simpl in *;
    repeat match goal with
           | H : Ok _ = Ok _ |- _ => injection H as <-
           | H : Some _ = None |- _ => discriminate H
           | H : Throw _ = Ok _ |- _ => discriminate H
           | H : ?f ?a = _, H' : ?f ?a = _ |- _ => rewrite H in H'
           end;
    try discriminate; try reflexivity; congruence.
Qed.

(** A null model state read from the instance still reaches
    [ModelInstanceState::Create], and the instance it returns is attached. *)
Definition null_model_lenv : LEnv :=
  mkLEnv (Ok 0) (Ok true) None (Ok 0) (Ok 1) (Ok 7) None (Ok None) None
         (Ok 3) (Ok 0%Z) (Ok 1) (Ok None)
         (fun ms => match ms with None => Ok 9 | Some _ => Ok 8 end)
         None (Ok None) None.

Lemma instance_initialize_attaches_on_success_witness :
  instance_name null_model_lenv = Ok 3 /\ device_id null_model_lenv = Ok 0%Z /\
  instance_kind null_model_lenv = Ok 1 /\ log_fail null_model_lenv = None /\
  model_state_of_instance null_model_lenv = Ok None /\
  instance_create null_model_lenv None = Ok 9 /\
  set_instance_fail null_model_lenv = None /\
  run_entry (TRITONBACKEND_ModelInstanceInitialize null_model_lenv)
  = (Ok None, [LLog (LInstanceInitialize 3 1 0%Z); LSetInstanceState 9]).
Proof.
  do 7 (split; [reflexivity|]).
  exact (proj2 (proj2 (instance_initialize_attaches_on_success null_model_lenv))
           3 0%Z 1 None 9 eq_refl eq_refl eq_refl eq_refl eq_refl eq_refl eq_refl).
Defined.

(** Extra property: a successful [TRITONBACKEND_ModelFinalize] on a
    non-null model state has unloaded the model, then logged, then deleted
    that state, and on a null one has only logged (no unload, no delete);
    a null model state makes finalization succeed exactly when the log
    line is written; and on every failure path the model state is not
    deleted. *)
Theorem model_finalize_order env :
  (fst (run_entry (TRITONBACKEND_ModelFinalize env)) = Ok None ->
   snd (run_entry (TRITONBACKEND_ModelFinalize env))
   = match model_state_of_model env with
     | Ok (Some p) => [LUnloadModel p; LLog LModelFinalize; LDeleteModelState p]
     | _ => [LLog LModelFinalize]
     end) /\
  (model_state_of_model env = Ok None ->
   fst (run_entry (TRITONBACKEND_ModelFinalize env)) = Ok (log_fail env)) /\
  (forall p, In (LDeleteModelState p) (snd (run_entry (TRITONBACKEND_ModelFinalize env))) ->
   fst (run_entry (TRITONBACKEND_ModelFinalize env)) = Ok None).
Proof.
  destruct env as [bn vo lf mn mv mc smf msm umf iname did ik msi ic sif ist uff];
    simpl; lc_run; repeat split; intros;
    repeat match goal with
           | H : In _ _ |- _ => simpl in H
           | H : _ \/ _ |- _ => destruct H
           | H : False |- _ => destruct H
           end;
    try discriminate; reflexivity.
Qed.

(** Extra property: [TRITONBACKEND_ModelInstanceFinalize] on a null
    instance state succeeds and does nothing at all (in particular, unlike
    model finalization, it writes no log line); a successful finalization
    of a non-null instance state has unloaded the FIL model, then logged,
    then deleted that state; and on every failure path the instance state
    is not deleted. *)
Theorem instance_finalize_order env :
  (instance_state env = Ok None ->
   run_entry (TRITONBACKEND_ModelInstanceFinalize env) = (Ok None, [])) /\
  (forall p, instance_state env = Ok (Some p) ->
   fst (run_entry (TRITONBACKEND_ModelInstanceFinalize env)) = Ok None ->
   snd (run_entry (TRITONBACKEND_ModelInstanceFinalize env))
   = [LUnloadFILModel p; LLog LInstanceFinalize; LDeleteInstanceState p]) /\
  (forall p, In (LDeleteInstanceState p)
               (snd (run_entry (TRITONBACKEND_ModelInstanceFinalize env))) ->
   fst (run_entry (TRITONBACKEND_ModelInstanceFinalize env)) = Ok None).
Proof.
  destruct env as [bn vo lf mn mv mc smf msm umf iname did ik msi ic sif ist uff];
    simpl; lc_run; repeat split; intros;
    repeat match goal with
           | H : In _ _ |- _ => simpl in H
           | H : _ \/ _ |- _ => destruct H
           | H : False |- _ => destruct H
           | H : Ok _ = Ok _ |- _ => injection H as ->
           end;
    try discriminate; reflexivity.
Qed.

End Lifecycle.
